(** * MacroLib: model factory registry, enrichment pipeline, add-model use case

    A shallow embedding of [src/use-cases/add-model.js] and of the model
    factory module that follows it in the same source file, together with
    the properties of the registry, of the event-naming protocol and of the
    [addModel] orchestration.

    JavaScript objects are attribute bags ([gmap string value]) carrying a
    frozen flag, the two registries are insertion-ordered [Map]s, and every
    operation runs in a state-and-exception monad over the module-level
    variables.  An [async] function is its settled result: [Ok] for a
    resolved promise, [Throw] for a rejected one. *)

From Stdlib Require Import Ascii.
From stdpp Require Import gmap strings list fin_maps pretty.


(** ** The host language: values, strings, objects *)

Module Js.

(** The values that flow through the module.  Function values are either
    supplied by the application ([VHostFn]), the imported identifier
    generator ([VUuid]), or one of the accessors [() => v] that the
    pipeline synthesises ([VThunk]). *)
#[warnings="-register-all"]
Inductive value : Type :=
| VUndefined
| VNull
| VBool (b : bool)
| VNum (n : Z)
| VStr (s : string)
| VObj (frozen : bool) (props : gmap string value)
| VHostFn (k : nat)
| VUuid
| VThunk (v : value).

Inductive error : Type :=
| Error (msg : string)         (* throw new Error(msg) *)
| TypeError (msg : string)     (* raised by the runtime itself *)
| Rejected (reason : value).   (* a collaborator's promise rejected *)

Inductive outcome (A : Type) : Type :=
| Ok (a : A)
| Throw (e : error).
Arguments Ok {A} a.
Arguments Throw {A} e.

(** [String.prototype.toUpperCase] and [toLowerCase] on the ASCII letters;
    every other character is left as it is. *)
Definition ascii_toUpper (c : ascii) : ascii :=
  let n := nat_of_ascii c in
  if (97 <=? n)%nat && (n <=? 122)%nat then ascii_of_nat (n - 32) else c.

Definition ascii_toLower (c : ascii) : ascii :=
  let n := nat_of_ascii c in
  if (65 <=? n)%nat && (n <=? 90)%nat then ascii_of_nat (n + 32) else c.

Fixpoint toUpperCase (s : string) : string :=
  match s with
  | EmptyString => EmptyString
  | String c r => String (ascii_toUpper c) (toUpperCase r)
  end.

Fixpoint toLowerCase (s : string) : string :=
  match s with
  | EmptyString => EmptyString
  | String c r => String (ascii_toLower c) (toLowerCase r)
  end.

(** [typeof v === 'string'] and [typeof v === 'function']. *)
Definition is_string (v : value) : bool :=
  match v with VStr _ => true | _ => false end.

Definition is_function (v : value) : bool :=
  match v with VHostFn _ | VUuid | VThunk _ => true | _ => false end.

(** ToBoolean, as used by [||]. *)
Definition truthy (v : value) : bool :=
  match v with
  | VUndefined | VNull => false
  | VBool b => b
  | VNum n => negb (n =? 0)%Z
  | VStr s => negb (String.eqb s "")
  | _ => true
  end.

(** Property read on an attribute bag: an absent key reads [undefined]. *)
Definition get (o : gmap string value) (k : string) : value :=
  default VUndefined (o !! k).

(** The own enumerable properties copied by [{...v}] and by
    [Object.assign]: those of an object, the indexed characters of a
    string, nothing for any other value. *)
Fixpoint string_props (i : nat) (s : string) : gmap string value :=
  match s with
  | EmptyString => ∅
  | String c r => <[pretty i := VStr (String c EmptyString)]> (string_props (S i) r)
  end.

Definition own_props (v : value) : gmap string value :=
  match v with
  | VObj _ props => props
  | VStr s => string_props 0 s
  | _ => ∅
  end.

(** [Object.assign({}, o, ext)]: a fresh, unfrozen bag in which the keys
    of [ext] shadow those of [o]. *)
Definition assign (o ext : gmap string value) : gmap string value := ext ∪ o.

(** [Object.freeze(v)]: marks an object, returns anything else as is. *)
Definition freeze (v : value) : value :=
  match v with
  | VObj _ props => VObj true props
  | _ => v
  end.

(** The two ways a caller can try to change an object it holds: the
    assignment [o[k] = v] and [delete o[k]].  On a frozen object the
    attempt raises [TypeError] in strict code and does nothing in sloppy
    code; the result is the object as it is afterwards.  Function values
    are modelled without attributes of their own, like the primitives. *)
Definition set_property (strict : bool) (o : value) (k : string) (v : value)
  : outcome value :=
  match o with
  | VObj false props => Ok (VObj false (<[k := v]> props))
  | VObj true props =>
      if strict then Throw (TypeError "object is not extensible or property is read-only")
      else Ok o
  | VUndefined | VNull => Throw (TypeError "cannot set properties of undefined or null")
  | _ => if strict then Throw (TypeError "cannot create property on a primitive") else Ok o
  end.

Definition delete_property (strict : bool) (o : value) (k : string)
  : outcome value :=
  match o with
  | VObj false props => Ok (VObj false (delete k props))
  | VObj true props =>
      if bool_decide (is_Some (props !! k)) && strict
      then Throw (TypeError "cannot delete property of a frozen object")
      else Ok o
  | VUndefined | VNull => Throw (TypeError "cannot convert undefined or null to object")
  | _ => Ok o
  end.

End Js.
Export Js.

(** ** The built-in [Map], in insertion order *)

Module JsMap.

Definition t : Type := list (string * value).

Definition empty : t := [].

Fixpoint get (k : string) (m : t) : option value :=
  match m with
  | [] => None
  | (k', v) :: r => if String.eqb k k' then Some v else get k r
  end.

Definition has (k : string) (m : t) : bool :=
  match get k m with Some _ => true | None => false end.

(** [set] keeps the position of a key that is already present. *)
Fixpoint set (k : string) (v : value) (m : t) : t :=
  match m with
  | [] => [(k, v)]
  | (k', v') :: r =>
      if String.eqb k k' then (k, v) :: r else (k', v') :: set k v r
  end.

Definition values (m : t) : list value := map snd m.

End JsMap.

(** ** Collaborators and module state *)

(** What the module consumes from outside: the functions the application
    registers, the identifier generator of [lib/uuid], the clock, the
    repository and the observer.  A function of the application is known by
    its settled result on each argument list ([Ok] when its promise
    resolves, [Throw] when it throws or rejects); it does not call back
    into the factory while it runs.  The generator and the clock answer by
    how often they were asked. *)
Class Host : Type := {
  host_fn : nat -> list value -> outcome value;
  uuid : nat -> string;                (* the n-th identifier handed out *)
  utc_now : nat -> string;             (* new Date().toUTCString(), n-th read *)
  repository_save : value -> value -> outcome value;
  observer_notify : value -> value -> outcome value
}.

(** What the module does to the outside, in the order it does it. *)
Inductive effect : Type :=
| Called (f : value) (args : list value)
| Saved (id model : value)
| Notified (name event : value).

Record ModelFactoryInstance : Type := Instance { instance_id : nat }.

(** The module-level variables [modelFactories] and [eventFactories]
    ([None] while still [undefined]), the instance kept by [../models], and
    the counters of the identifier generator and of the clock. *)
Record world : Type := World {
  modelFactories : option JsMap.t;
  eventFactories : option (gmap string JsMap.t);
  singleton : option ModelFactoryInstance;
  instances : nat;
  uuid_calls : nat;
  clock_reads : nat;
  trace : list effect
}.

Definition M (A : Type) : Type := world -> outcome A * world.

Definition ret {A} (a : A) : M A := fun w => (Ok a, w).

Definition throw {A} (e : error) : M A := fun w => (Throw e, w).

Definition bind {A B} (c : M A) (k : A -> M B) : M B :=
  fun w => match c w with
           | (Ok a, w') => k a w'
           | (Throw e, w') => (Throw e, w')
           end.

Definition lift {A} (r : outcome A) : M A := fun w => (r, w).

Declare Scope js_scope.
Delimit Scope js_scope with js.
Notation "x <- c ;; k" := (bind c (fun x => k))
  (at level 100, c at next level, right associativity) : js_scope.
Notation "c ;;; k" := (bind c (fun _ => k))
  (at level 100, right associativity) : js_scope.
Open Scope js_scope.

Definition emit (e : effect) : M unit :=
  fun w => (Ok tt, World (modelFactories w) (eventFactories w) (singleton w)
                         (instances w) (uuid_calls w) (clock_reads w)
                         (trace w ++ [e])).

Definition read_modelFactories : M JsMap.t :=
  fun w => match modelFactories w with
           | Some m => (Ok m, w)
           | None => (Throw (TypeError "cannot read properties of undefined"), w)
           end.

Definition write_modelFactories (m : JsMap.t) : M unit :=
  fun w => (Ok tt, World (Some m) (eventFactories w) (singleton w)
                         (instances w) (uuid_calls w) (clock_reads w) (trace w)).

(** [eventFactories[eventType]]: the [Map] of one event type. *)
Definition read_eventFactories (eventType : string) : M JsMap.t :=
  fun w => match eventFactories w with
           | Some ef =>
               match ef !! eventType with
               | Some m => (Ok m, w)
               | None => (Throw (TypeError "cannot read properties of undefined"), w)
               end
           | None => (Throw (TypeError "cannot read properties of undefined"), w)
           end.

Definition write_eventFactories (eventType : string) (m : JsMap.t) : M unit :=
  fun w => (Ok tt, World (modelFactories w)
                         ((fun ef => <[eventType := m]> ef) <$> eventFactories w)
                         (singleton w) (instances w) (uuid_calls w)
                         (clock_reads w) (trace w)).

Section Pipeline.
Context {env : Host}.

(** Application of a function value, awaited. *)
Definition call (f : value) (args : list value) : M value :=
  match f with
  | VHostFn k => emit (Called f args) ;;; lift (host_fn k args)
  | VUuid =>
      emit (Called f args) ;;;
      fun w => (Ok (VStr (uuid (uuid_calls w))),
                World (modelFactories w) (eventFactories w) (singleton w)
                      (instances w) (S (uuid_calls w)) (clock_reads w) (trace w))
  | VThunk v => emit (Called f args) ;;; ret v
  | _ => throw (TypeError "not a function")
  end.

(** Property read [v.k] on any value. *)
Definition read_prop (v : value) (k : string) : M value :=
  match v with
  | VUndefined | VNull => throw (TypeError "cannot read properties of undefined or null")
  | _ => ret (get (own_props v) k)
  end.

(** Method call [v.k(args)]. *)
Definition invoke (v : value) (k : string) (args : list value) : M value :=
  method <- read_prop v k ;;
  call method args.

Definition EventTypes : list (string * string) :=
  [("CREATE", "CREATE"); ("UPDATE", "UPDATE"); ("DELETE", "DELETE")].

Definition EventTypes_CREATE : string := "CREATE".

Definition checkModelName (modelName : value) : outcome string :=
  match modelName with
  | VStr s => Ok (toUpperCase s)
  | _ => Throw (Error "modelName missing or invalid")
  end.

Definition checkEventType (eventType : value) : outcome string :=
  match eventType with
  | VStr s =>
      let eventType := toUpperCase s in
      if bool_decide (eventType ∈ EventTypes.*1) then Ok eventType
      else Throw (Error "eventType missing or invalid")
  | _ => Throw (Error "eventType missing or invalid")
  end.

Definition createEventName (eventType modelName : value) : outcome string :=
  match checkEventType eventType with
  | Ok e =>
      match checkModelName modelName with
      | Ok m => Ok (e +:+ m)
      | Throw err => Throw err
      end
  | Throw err => Throw err
  end.

Definition addId (o : gmap string value) : M (gmap string value) :=
  _id <- call (get o "generateId") [] ;;
  ret (assign o {[ "id" := _id; "getId" := VThunk _id ]}).

Definition addEventName (o : gmap string value) : M (gmap string value) :=
  let eventType := get o "eventType" in
  let modelName := get o "modelName" in
  _eventName <- lift (createEventName eventType modelName) ;;
  ret (assign o {[ "eventName" := VStr _eventName;
                   "getEventName" := VThunk (VStr _eventName) ]}).

Definition addModelName (o : gmap string value) : M (gmap string value) :=
  let modelName := get o "modelName" in
  ret (assign o {[ "modelName" := modelName;
                   "getModelName" := VThunk modelName ]}).

Definition timeStamp : M string :=
  fun w => (Ok (utc_now (clock_reads w)),
            World (modelFactories w) (eventFactories w) (singleton w)
                  (instances w) (uuid_calls w) (S (clock_reads w)) (trace w)).

(** [propName]: a truthy [eventType] that is not a string has no
    [toLowerCase] (an object that brings its own is not modelled). *)
Definition propName (eventType : value) : outcome string :=
  let e := if truthy eventType then eventType else VStr EventTypes_CREATE in
  match e with
  | VStr s => Ok (toLowerCase s +:+ "Time")
  | _ => Throw (TypeError "e.toLowerCase is not a function")
  end.

Definition addTimestamp (o : gmap string value) : M (gmap string value) :=
  let eventType := get o "eventType" in
  key <- lift (propName eventType) ;;
  stamp <- timeStamp ;;
  ret (assign o {[ key := VStr stamp ]}).

(** Modelled from the spec: [lib/compose] is not under src.  Section 4.2
    describes the pipeline as a left-to-right composition of the
    decorators, each fed the bag its predecessor returned. *)
Definition compose (fs : list (gmap string value -> M (gmap string value)))
  (o : gmap string value) : M (gmap string value) :=
  fold_left (fun acc f => bind acc f) fs (ret o).

Definition enrichModel : gmap string value -> M (gmap string value) :=
  compose [addId; addModelName; addTimestamp].

Definition enrichEvent : gmap string value -> M (gmap string value) :=
  compose [addId; addEventName; addTimestamp].

(** The other reading of [compose], right to left, under which the
    decorators run last to first; the pipelines are shown below to return
    the same bag and leave the same state under either reading. *)
Definition composeRight (fs : list (gmap string value -> M (gmap string value)))
  (o : gmap string value) : M (gmap string value) :=
  fold_right (fun f acc => bind acc f) (ret o) fs.

End Pipeline.

(** ** The model module *)

(** Modelled from the spec: [./model] is not under src.  By section 4.1,
    [createModel] "invokes the constructor asynchronously with args, applies
    the model enrichment pipeline to the constructor's output merged with
    {id-generator, modelTypeName} metadata"; the merge is written as the
    event path of the source writes it, metadata last. *)
Definition Model_create {env : Host} (factory args : value) (modelName : string)
  : M value :=
  model <- call factory [args] ;;
  let options : gmap string value :=
    {[ "generateId" := VUuid; "modelName" := VStr modelName ]} in
  enriched <- enrichModel (assign (own_props model) options) ;;
  ret (VObj false enriched).

(** ** The factory: registration, listing, assembly *)

Section Factory.
Context {env : Host}.

(** [Model.create], of which the source only shows the call. *)
Variable Model_create_impl : value -> value -> string -> M value.

Definition new_ModelFactoryInstance : M ModelFactoryInstance :=
  fun w => (Ok (Instance (instances w)),
            World (Some JsMap.empty)
                  (Some {[ "CREATE" := JsMap.empty;
                           "UPDATE" := JsMap.empty;
                           "DELETE" := JsMap.empty ]})
                  (singleton w) (S (instances w)) (uuid_calls w)
                  (clock_reads w) (trace w)).

Definition registerModel (this : ModelFactoryInstance)
  (modelName factoryFunction : value) : M unit :=
  modelName <- lift (checkModelName modelName) ;;
  registry <- read_modelFactories ;;
  if negb (JsMap.has modelName registry) && is_function factoryFunction
  then write_modelFactories (JsMap.set modelName factoryFunction registry)
  else ret tt.

Definition registerEvent (this : ModelFactoryInstance)
  (eventType modelName factoryFunction : value) : M unit :=
  modelName <- lift (checkModelName modelName) ;;
  eventType <- lift (checkEventType eventType) ;;
  if is_function factoryFunction
  then
    registry <- read_eventFactories eventType ;;
    write_eventFactories eventType (JsMap.set modelName factoryFunction registry)
  else ret tt.

Definition listModels (this : ModelFactoryInstance) : M (list value) :=
  registry <- read_modelFactories ;;
  ret (JsMap.values registry).

Definition createModel (this : ModelFactoryInstance)
  (modelName args : value) : M value :=
  modelName <- lift (checkModelName modelName) ;;
  registry <- read_modelFactories ;;
  if JsMap.has modelName registry
  then
    model <- Model_create_impl
               (default VUndefined (JsMap.get modelName registry))
               args modelName ;;
    ret (freeze model)
  else throw (Error "unregistered model").

Definition createEvent (this : ModelFactoryInstance)
  (eventType modelName args : value) : M value :=
  modelName <- lift (checkModelName modelName) ;;
  eventType <- lift (checkEventType eventType) ;;
  registry <- read_eventFactories eventType ;;
  if JsMap.has modelName registry
  then
    event <- call (default VUndefined (JsMap.get modelName registry)) [args] ;;
    let options : gmap string value :=
      {[ "generateId" := VUuid;
         "modelName" := VStr modelName;
         "eventType" := VStr eventType ]} in
    enriched <- enrichEvent (assign (own_props event) options) ;;
    ret (freeze (VObj false enriched))
  else throw (Error "unregistered model event").

(** ** The add-model use case *)

(** Modelled from the spec: [../models] is not under src.  The registry is
    process-wide and lives as long as the process (section 3), so
    [getInstance] hands out one instance, built on first use. *)
Definition ModelFactory_getInstance : M ModelFactoryInstance :=
  fun w => match singleton w with
           | Some factory => (Ok factory, w)
           | None =>
               match new_ModelFactoryInstance w with
               | (Ok factory, w') =>
                   (Ok factory,
                    World (modelFactories w') (eventFactories w') (Some factory)
                          (instances w') (uuid_calls w') (clock_reads w')
                          (trace w'))
               | (Throw e, w') => (Throw e, w')
               end
           end.

(** Modelled from the spec: [ModelFactory.eventTypes] of [../models] is the
    closed set of section 3, of which the use case takes CREATE. *)
Definition ModelFactory_eventTypes_CREATE : string := EventTypes_CREATE.

Definition save (id model : value) : M value :=
  emit (Saved id model) ;;; lift (repository_save id model).

Definition notify (name event : value) : M value :=
  emit (Notified name event) ;;; lift (observer_notify name event).

(** The function returned by [addModelFactory], with the [modelName] it was
    configured with.  The subscription of the handlers, done once when the
    use case is configured, is not part of an invocation. *)
Definition addModel (modelName input : value) : M value :=
  let eventType := VStr ModelFactory_eventTypes_CREATE in
  factory <- ModelFactory_getInstance ;;
  model <- createModel factory modelName input ;;
  event <- createEvent factory eventType modelName model ;;
  id <- read_prop model "id" ;;
  save id model ;;;
  name <- invoke event "getEventName" [] ;;
  notify name event ;;;
  ret model.

End Factory.

(** ** A concrete application

    The end-to-end scenario of the specification: model "Order" whose
    constructor returns a bag with [total: 100], and an event constructor
    that echoes its input.  The further functions serve as test doubles. *)

Definition demo_host : Host := {|
  host_fn k args :=
    match k with
    | 0 => Ok (VObj false {[ "total" := VNum 100 ]})
    | 1 => Ok (hd VUndefined args)
    | 2 => Ok (VObj false {[ "eventType" := VStr "UPDATE" ]})
    | 3 => Ok (VObj true {[ "id" := VNum 7; "getId" := VNull;
                            "modelName" := VStr "mine"; "eventType" := VNum 1;
                            "eventName" := VStr "mine";
                            "getEventName" := VThunk (VStr "mine");
                            "generateId" := VThunk (VStr "fixed");
                            "kept" := VBool true ]})
    | _ => Throw (Rejected (VStr "constructor failed"))
    end;
  uuid n := "id-" +:+ pretty n;
  utc_now n := "Thu, 01 Jan 1970 00:00:0" +:+ pretty n +:+ " GMT";
  repository_save id model := Ok VUndefined;
  observer_notify name event := Ok VUndefined
|}.

(** The module just loaded: nothing constructed yet. *)
Definition fresh : world := World None None None 0 0 0 [].

(** The state an execution leaves behind, and its result. *)
Definition exec {A} (c : M A) (w : world) : world := (c w).2.
Definition result {A} (c : M A) (w : world) : outcome A := (c w).1.

(** The demo application wired as at start-up: the shared instance is
    obtained, "Order" is registered with its model constructor and with an
    echoing constructor for its CREATE event. *)
Definition wired : world :=
  exec
    (factory <- ModelFactory_getInstance ;;
     registerModel factory (VStr "Order") (VHostFn 0) ;;;
     registerEvent factory (VStr "create") (VStr "Order") (VHostFn 1))
    fresh.

(** The module after its first [new ModelFactoryInstance()]. *)
Definition constructed : world := exec new_ModelFactoryInstance fresh.

(** What an execution of the demo application resolved to. *)
Definition resolved (c : M value) (w : world) : value :=
  match result c w with
  | Ok v => v
  | Throw _ => VUndefined
  end.

(** The bag of an object. *)
Definition props_of (v : value) : gmap string value :=
  match v with
  | VObj _ props => props
  | _ => ∅
  end.

(** ** Vocabulary of the properties *)

(** The error taxonomy of the specification, as the source raises it. *)
Definition InvalidArgument : error := Error "modelName missing or invalid".
Definition InvalidEventType : error := Error "eventType missing or invalid".
Definition UnregisteredModel : error := Error "unregistered model".
Definition UnregisteredModelEvent : error := Error "unregistered model event".

(** [w] with further effects appended to its trace. *)
Definition logged (es : list effect) (w : world) : world :=
  World (modelFactories w) (eventFactories w) (singleton w)
        (instances w) (uuid_calls w) (clock_reads w) (trace w ++ es).

(** Every attempt to set or delete an attribute is either rejected or
    leaves the value exactly as it was. *)
Definition immutable (v : value) : Prop :=
  (forall strict k x,
      (exists e, set_property strict v k x = Throw e)
      \/ set_property strict v k x = Ok v)
  /\ (forall strict k,
      (exists e, delete_property strict v k = Throw e)
      \/ delete_property strict v k = Ok v).

(** Two names are casings of one another. *)
Definition same_name (n1 n2 : string) : Prop := toUpperCase n1 = toUpperCase n2.

(** The bag [enrichEvent] returns for the pair [(eventType, modelName)], the
    identifier [id] and the time [stamp], over the bag [o] it was given. *)
Definition enriched_event (eventType modelName id stamp : string)
  (o : gmap string value) : gmap string value :=
  {[ toLowerCase eventType +:+ "Time" := VStr stamp ]}
  ∪ ({[ "eventName" := VStr (eventType +:+ modelName);
        "getEventName" := VThunk (VStr (eventType +:+ modelName)) ]}
  ∪ ({[ "id" := VStr id; "getId" := VThunk (VStr id) ]} ∪ o)).


(** The state after the pipeline drew one identifier, after it read the
    clock once, and after both. *)
Definition id_drawn (w : world) : world :=
  World (modelFactories w) (eventFactories w) (singleton w) (instances w)
        (S (uuid_calls w)) (clock_reads w) (trace w ++ [Called VUuid []]).

Definition clock_read (w : world) : world :=
  World (modelFactories w) (eventFactories w) (singleton w) (instances w)
        (uuid_calls w) (S (clock_reads w)) (trace w).

Definition stamped (w : world) : world := clock_read (id_drawn w).

(** The metadata [createEvent] and [Model.create] merge over the
    constructor's output. *)
Definition event_options (eventType modelName : string) : gmap string value :=
  {[ "generateId" := VUuid;
     "modelName" := VStr modelName;
     "eventType" := VStr eventType ]}.


(** From [w] to [w'] the module only applied functions: the trace grew by
    [Called] entries and the registries are as they were. *)
Definition is_call (e : effect) : Prop :=
  match e with Called _ _ => True | _ => False end.

Definition calls_only (w w' : world) : Prop :=
  modelFactories w' = modelFactories w
  /\ eventFactories w' = eventFactories w
  /\ singleton w' = singleton w
  /\ exists es, trace w' = trace w ++ es /\ Forall is_call es.

(** A computation that, however it ends, has only applied functions. *)
Definition quiet {A} (c : M A) : Prop :=
  forall w r w', c w = (r, w') -> calls_only w w'.

(** The ways one [addModel(input)] can go.  Each constructor names the step
    at which the run ends, the steps that ran before it, and the state the
    run leaves: up to the creation of the event only functions were
    applied; [Saved] enters the trace after that, and [Notified] only after
    a successful save. *)
Section UseCaseRuns.
Context {env : Host}.

Inductive addModel_run (modelName input : value) (w : world)
  : outcome value * world -> Prop :=
| model_rejected factory wa e w1 :
    ModelFactory_getInstance w = (Ok factory, wa) ->
    trace wa = trace w ->
    createModel Model_create factory modelName input wa = (Throw e, w1) ->
    calls_only wa w1 ->
    addModel_run modelName input w (Throw e, w1)
| event_rejected factory wa model w1 e w2 :
    ModelFactory_getInstance w = (Ok factory, wa) ->
    trace wa = trace w ->
    createModel Model_create factory modelName input wa = (Ok model, w1) ->
    createEvent factory (VStr "CREATE") modelName model w1 = (Throw e, w2) ->
    calls_only wa w2 ->
    addModel_run modelName input w (Throw e, w2)
| save_rejected factory wa model w1 event w2 id e :
    ModelFactory_getInstance w = (Ok factory, wa) ->
    trace wa = trace w ->
    createModel Model_create factory modelName input wa = (Ok model, w1) ->
    createEvent factory (VStr "CREATE") modelName model w1 = (Ok event, w2) ->
    calls_only wa w2 ->
    id = get (own_props model) "id" ->
    repository_save id model = Throw e ->
    addModel_run modelName input w (Throw e, logged [Saved id model] w2)
| notify_rejected factory wa model w1 event w2 id name saved e :
    ModelFactory_getInstance w = (Ok factory, wa) ->
    trace wa = trace w ->
    createModel Model_create factory modelName input wa = (Ok model, w1) ->
    createEvent factory (VStr "CREATE") modelName model w1 = (Ok event, w2) ->
    calls_only wa w2 ->
    id = get (own_props model) "id" ->
    repository_save id model = Ok saved ->
    get (own_props event) "getEventName" = VThunk name ->
    observer_notify name event = Throw e ->
    addModel_run modelName input w
      (Throw e,
       logged [Saved id model; Called (VThunk name) []; Notified name event] w2)
| completed factory wa model w1 event w2 id name saved notified :
    ModelFactory_getInstance w = (Ok factory, wa) ->
    trace wa = trace w ->
    createModel Model_create factory modelName input wa = (Ok model, w1) ->
    createEvent factory (VStr "CREATE") modelName model w1 = (Ok event, w2) ->
    calls_only wa w2 ->
    id = get (own_props model) "id" ->
    repository_save id model = Ok saved ->
    get (own_props event) "getEventName" = VThunk name ->
    observer_notify name event = Ok notified ->
    addModel_run modelName input w
      (Ok model,
       logged [Saved id model; Called (VThunk name) []; Notified name event] w2).

End UseCaseRuns.

(** ** Vocabulary of the further properties *)

(** The constructor registered for a canonical model-type name, and for a
    canonical (event type, model-type name) pair. *)
Definition model_constructor (w : world) (N : string) : option value :=
  match modelFactories w with
  | Some mf => JsMap.get N mf
  | None => None
  end.

Definition event_constructor (w : world) (E N : string) : option value :=
  match eventFactories w with
  | Some ef =>
      match ef !! E with
      | Some m => JsMap.get N m
      | None => None
      end
  | None => None
  end.

(** The registries exist and every event type has its map. *)
Definition ready (w : world) : Prop :=
  (exists mf, modelFactories w = Some mf)
  /\ exists ef, eventFactories w = Some ef
       /\ forall E, E = "CREATE" \/ E = "UPDATE" \/ E = "DELETE" ->
                    exists m, ef !! E = Some m.

(** Whatever is registered is a function. *)
Definition only_functions (w : world) : Prop :=
  (forall N f, model_constructor w N = Some f -> is_function f = true)
  /\ (forall E N f, event_constructor w E N = Some f -> is_function f = true).

(** An event type that [checkEventType] does not know. *)
Definition unknown_event_type (et : value) : Prop :=
  forall s, et = VStr s ->
    toUpperCase s <> "CREATE" /\ toUpperCase s <> "UPDATE"
    /\ toUpperCase s <> "DELETE".


(** * Properties *)

(** ** Strings and names *)

Lemma ascii_toUpper_idem (c : ascii) : ascii_toUpper (ascii_toUpper c) = ascii_toUpper c.
Proof. by destruct c as [[] [] [] [] [] [] [] []]. Qed.

Lemma toUpperCase_idem (s : string) : toUpperCase (toUpperCase s) = toUpperCase s.
Proof.
  induction s as [|c r IH]; simpl; [done|].
  by rewrite ascii_toUpper_idem, IH.
Qed.

Lemma ascii_toUpper_toLower (c : ascii) : ascii_toUpper (ascii_toLower c) = ascii_toUpper c.
Proof. by destruct c as [[] [] [] [] [] [] [] []]. Qed.

Lemma toUpperCase_toLowerCase (s : string) : toUpperCase (toLowerCase s) = toUpperCase s.
Proof.
  induction s as [|c r IH]; simpl; [done|].
  by rewrite ascii_toUpper_toLower, IH.
Qed.

Lemma checkModelName_string (s : string) : checkModelName (VStr s) = Ok (toUpperCase s).
Proof. reflexivity. Qed.

Lemma checkModelName_not_string (v : value) :
  is_string v = false -> checkModelName v = Throw InvalidArgument.
Proof. by destruct v. Qed.

Lemma checkModelName_Ok (v : value) (N : string) :
  checkModelName v = Ok N -> exists s, v = VStr s /\ N = toUpperCase s.
Proof. destruct v; simpl; intros H; try discriminate. injection H as <-. eauto. Qed.

(** An accepted event type is one of the three keys, in canonical form. *)
Lemma checkEventType_Ok (v : value) (E : string) :
  checkEventType v = Ok E ->
  (exists s, v = VStr s /\ E = toUpperCase s)
  /\ (E = "CREATE" \/ E = "UPDATE" \/ E = "DELETE").
Proof.
  destruct v; simpl; intros H; try discriminate.
  case_bool_decide as Hin; [|discriminate]. injection H as <-.
  split; [eauto|].
  simpl in Hin. rewrite !elem_of_cons, elem_of_nil in Hin. tauto.
Qed.

Lemma checkEventType_canonical (E : string) :
  E = "CREATE" \/ E = "UPDATE" \/ E = "DELETE" -> checkEventType (VStr E) = Ok E.
Proof. by intros [-> | [-> | ->]]. Qed.

Lemma createEventName_canonical (E : string) (s : string) :
  E = "CREATE" \/ E = "UPDATE" \/ E = "DELETE" ->
  createEventName (VStr E) (VStr (toUpperCase s)) = Ok (E +:+ toUpperCase s).
Proof.
  intros HE. unfold createEventName.
  by rewrite (checkEventType_canonical E HE), checkModelName_string, toUpperCase_idem.
Qed.

(** ** The insertion-ordered map *)

Lemma JsMap_get_set_eq (k : string) (v : value) (m : JsMap.t) :
  JsMap.get k (JsMap.set k v m) = Some v.
Proof.
  induction m as [|[k' v'] r IH]; simpl.
  - by rewrite String.eqb_refl.
  - destruct (String.eqb k k') eqn:E; simpl; rewrite ?String.eqb_refl, ?E; done.
Qed.

Lemma JsMap_get_set_ne (k k' : string) (v : value) (m : JsMap.t) :
  k <> k' -> JsMap.get k' (JsMap.set k v m) = JsMap.get k' m.
Proof.
  intros Hne. induction m as [|[k0 v0] r IH]; simpl.
  - destruct (String.eqb k' k) eqn:E; [|done].
    apply String.eqb_eq in E. congruence.
  - destruct (String.eqb k k0) eqn:E; simpl; [|by rewrite IH].
    apply String.eqb_eq in E. subst k0.
    destruct (String.eqb k' k) eqn:E'; [|done].
    apply String.eqb_eq in E'. congruence.
Qed.

Lemma JsMap_has_get (k : string) (m : JsMap.t) :
  JsMap.has k m = true <-> is_Some (JsMap.get k m).
Proof.
  unfold JsMap.has. destruct (JsMap.get k m) as [v|].
  - split; eauto.
  - split; [done | by intros [? ?]].
Qed.

Lemma JsMap_has_None (k : string) (m : JsMap.t) :
  JsMap.get k m = None -> JsMap.has k m = false.
Proof. unfold JsMap.has. by intros ->. Qed.

Lemma JsMap_has_Some (k : string) (m : JsMap.t) (v : value) :
  JsMap.get k m = Some v -> JsMap.has k m = true.
Proof. unfold JsMap.has. by intros ->. Qed.

(** ** The enrichment pipeline *)

Section Facts.
Context {env : Host}.

Lemma bind_Ok {A B} (c : M A) (k : A -> M B) (w w' : world) (a : A) :
  c w = (Ok a, w') -> bind c k w = k a w'.
Proof. unfold bind. by intros ->. Qed.

Lemma bind_Throw {A B} (c : M A) (k : A -> M B) (w w' : world) (e : error) :
  c w = (Throw e, w') -> bind c k w = (Throw e, w').
Proof. unfold bind. by intros ->. Qed.

Lemma bind_Ok_inv {A B} (c : M A) (k : A -> M B) (w w' : world) (b : B) :
  bind c k w = (Ok b, w') -> exists a w1, c w = (Ok a, w1) /\ k a w1 = (Ok b, w').
Proof.
  unfold bind. destruct (c w) as [[a|e] w1]; intros H; [eauto | discriminate].
Qed.

Lemma call_uuid (args : list value) (w : world) :
  call VUuid args w =
  (Ok (VStr (uuid (uuid_calls w))),
   World (modelFactories w) (eventFactories w) (singleton w) (instances w)
         (S (uuid_calls w)) (clock_reads w) (trace w ++ [Called VUuid args])).
Proof. reflexivity. Qed.

Lemma addId_ok (o : gmap string value) (w : world) :
  o !! "generateId" = Some VUuid ->
  addId o w =
  (Ok (assign o {[ "id" := VStr (uuid (uuid_calls w));
                   "getId" := VThunk (VStr (uuid (uuid_calls w))) ]}),
   id_drawn w).
Proof.
  intros Hgen. unfold addId, get. rewrite Hgen. simpl default.
  by rewrite (bind_Ok _ _ _ _ _ (call_uuid [] w)).
Qed.

Lemma addEventName_ok (o : gmap string value) (E s : string) (w : world) :
  o !! "eventType" = Some (VStr E) ->
  o !! "modelName" = Some (VStr (toUpperCase s)) ->
  E = "CREATE" \/ E = "UPDATE" \/ E = "DELETE" ->
  addEventName o w =
  (Ok (assign o {[ "eventName" := VStr (E +:+ toUpperCase s);
                   "getEventName" := VThunk (VStr (E +:+ toUpperCase s)) ]}),
   w).
Proof.
  intros Het Hname HE. unfold addEventName, get. rewrite Het, Hname. simpl default.
  by rewrite (createEventName_canonical E s HE).
Qed.

Lemma addTimestamp_ok (o : gmap string value) (key : string) (w : world) :
  propName (get o "eventType") = Ok key ->
  addTimestamp o w =
  (Ok (assign o {[ key := VStr (utc_now (clock_reads w)) ]}), clock_read w).
Proof. intros Hkey. unfold addTimestamp. by rewrite Hkey. Qed.

Lemma propName_canonical (E : string) :
  E = "CREATE" \/ E = "UPDATE" \/ E = "DELETE" ->
  propName (VStr E) = Ok (toLowerCase E +:+ "Time").
Proof. by intros [-> | [-> | ->]]. Qed.

Lemma enrichEvent_ok (o : gmap string value) (E s : string) (w : world) :
  o !! "generateId" = Some VUuid ->
  o !! "eventType" = Some (VStr E) ->
  o !! "modelName" = Some (VStr (toUpperCase s)) ->
  E = "CREATE" \/ E = "UPDATE" \/ E = "DELETE" ->
  enrichEvent o w =
  (Ok (enriched_event E (toUpperCase s) (uuid (uuid_calls w))
         (utc_now (clock_reads w)) o),
   stamped w).
Proof.
  intros Hgen Het Hname HE.
  unfold enrichEvent, compose; simpl fold_left.
  erewrite bind_Ok; cycle 1.
  { erewrite bind_Ok; cycle 1.
    { erewrite bind_Ok; [|reflexivity]. by apply addId_ok. }
    apply (addEventName_ok _ E s).
    - unfold assign. by rewrite lookup_union_r.
    - unfold assign. by rewrite lookup_union_r.
    - done. }
  rewrite (addTimestamp_ok _ (toLowerCase E +:+ "Time")); [reflexivity|].
  unfold get, assign. rewrite !lookup_union_r by done. rewrite Het. simpl.
  by apply propName_canonical.
Qed.


(** A timestamp key never collides with a key of the other decorators. *)
Lemma time_key_fresh (p : string) :
  p +:+ "Time" <> "id" /\ p +:+ "Time" <> "getId"
  /\ p +:+ "Time" <> "modelName" /\ p +:+ "Time" <> "getModelName".
Proof.
  repeat split;
    do 13 (try (destruct p as [|? p]; simpl; [discriminate|]));
    discriminate.
Qed.

(** The decorators write disjoint keys, so the order in which they are
    composed does not show in the result. *)
Lemma decorations_commute (a b c d e : value) (key p : string)
  (k1 k2 : string) (o : gmap string value) :
  key = p +:+ "Time" ->
  (k1 = "eventName" /\ k2 = "getEventName")
  \/ (k1 = "modelName" /\ k2 = "getModelName") ->
  ({[ "id" := a; "getId" := b ]} : gmap string value)
  ∪ ({[ k1 := c; k2 := d ]} ∪ ({[ key := e ]} ∪ o))
  = {[ key := e ]} ∪ ({[ k1 := c; k2 := d ]} ∪ ({[ "id" := a; "getId" := b ]} ∪ o)).
Proof.
  intros -> Hk.
  assert (Hev : p +:+ "Time" <> "eventName" /\ p +:+ "Time" <> "getEventName").
  { split;
      do 13 (try (destruct p as [|? p]; simpl; [discriminate|]));
      discriminate. }
  destruct (time_key_fresh p) as (Hid & Hgid & Hmn & Hgmn).
  destruct Hev as [Hen Hgen].
  apply map_eq. intros i.
  rewrite !lookup_union, !lookup_insert, !lookup_singleton.
  destruct Hk as [[-> ->] | [-> ->]];
    repeat case_decide; subst; try done; by destruct (o !! _).
Qed.

Lemma enrichEvent_either_way (o : gmap string value) (E s : string) (w : world) :
  o !! "generateId" = Some VUuid ->
  o !! "eventType" = Some (VStr E) ->
  o !! "modelName" = Some (VStr (toUpperCase s)) ->
  E = "CREATE" \/ E = "UPDATE" \/ E = "DELETE" ->
  composeRight [addId; addEventName; addTimestamp] o w = enrichEvent o w.
Proof.
  intros Hgen Het Hname HE.
  rewrite (enrichEvent_ok o E s w Hgen Het Hname HE).
  unfold composeRight; simpl fold_right.
  erewrite bind_Ok; cycle 1.
  { erewrite bind_Ok; cycle 1.
    { erewrite bind_Ok; [|reflexivity].
      apply (addTimestamp_ok _ (toLowerCase E +:+ "Time")).
      unfold get. rewrite Het. by apply propName_canonical. }
    apply (addEventName_ok _ E s); [| |done].
    - unfold assign. rewrite lookup_union_r; [done|].
      apply lookup_singleton_ne. by destruct HE as [-> | [-> | ->]].
    - unfold assign. rewrite lookup_union_r; [done|].
      apply lookup_singleton_ne. by destruct HE as [-> | [-> | ->]]. }
  rewrite addId_ok; cycle 1.
  { unfold assign. rewrite !lookup_union_r; [done | |done].
    apply lookup_singleton_ne. by destruct HE as [-> | [-> | ->]]. }
  unfold assign.
  rewrite (decorations_commute _ _ _ _ _ (toLowerCase E +:+ "Time")
             (toLowerCase E) "eventName" "getEventName" o eq_refl
             (or_introl (conj eq_refl eq_refl))).
  reflexivity.
Qed.



(** ** Assembly of events *)

Lemma event_options_lookup (o : gmap string value) (E N : string) :
  assign o (event_options E N) !! "generateId" = Some VUuid
  /\ assign o (event_options E N) !! "eventType" = Some (VStr E)
  /\ assign o (event_options E N) !! "modelName" = Some (VStr N).
Proof. unfold assign. repeat split; by apply lookup_union_Some_l. Qed.

(** [createEvent] on a registered pair whose constructor resolves. *)
Lemma createEvent_registered (this : ModelFactoryInstance)
  (et n args g out : value) (E N : string)
  (ef : gmap string JsMap.t) (m : JsMap.t) (w w1 : world) :
  checkModelName n = Ok N ->
  checkEventType et = Ok E ->
  eventFactories w = Some ef ->
  ef !! E = Some m ->
  JsMap.get N m = Some g ->
  call g [args] w = (Ok out, w1) ->
  createEvent this et n args w =
  (Ok (VObj true (enriched_event E N (uuid (uuid_calls w1))
                    (utc_now (clock_reads w1))
                    (assign (own_props out) (event_options E N)))),
   stamped w1).
Proof.
  intros Hn He Hef Hm Hg Hcall.
  destruct (checkModelName_Ok _ _ Hn) as (s & -> & ->).
  destruct (checkEventType_Ok _ _ He) as [_ HE].
  unfold createEvent.
  rewrite (bind_Ok _ _ w w (toUpperCase s)) by (unfold lift; by rewrite Hn).
  rewrite (bind_Ok _ _ w w E) by (unfold lift; by rewrite He).
  rewrite (bind_Ok _ _ w w m)
    by (unfold read_eventFactories; by rewrite Hef, Hm).
  rewrite (JsMap_has_Some _ _ _ Hg), Hg. simpl default.
  rewrite (bind_Ok _ _ _ _ _ Hcall).
  erewrite bind_Ok; [reflexivity|].
  destruct (event_options_lookup (own_props out) E (toUpperCase s)) as (? & ? & ?).
  by apply enrichEvent_ok.
Qed.

(** Every event [createEvent] returns was assembled that way. *)
Lemma createEvent_Ok_inv (this : ModelFactoryInstance)
  (et n args ev : value) (w w' : world) :
  createEvent this et n args w = (Ok ev, w') ->
  exists E N ef m g out w1,
    checkModelName n = Ok N
    /\ checkEventType et = Ok E
    /\ eventFactories w = Some ef
    /\ ef !! E = Some m
    /\ JsMap.get N m = Some g
    /\ call g [args] w = (Ok out, w1)
    /\ ev = VObj true (enriched_event E N (uuid (uuid_calls w1))
                         (utc_now (clock_reads w1))
                         (assign (own_props out) (event_options E N)))
    /\ w' = stamped w1.
Proof.
  intros H.
  destruct (checkModelName n) as [N|e] eqn:Hn; cycle 1.
  { unfold createEvent in H.
    rewrite (bind_Throw _ _ w w e) in H by (unfold lift; by rewrite Hn).
    discriminate. }
  destruct (checkEventType et) as [E|e] eqn:He; cycle 1.
  { unfold createEvent in H.
    rewrite (bind_Ok _ _ w w N) in H by (unfold lift; by rewrite Hn).
    rewrite (bind_Throw _ _ w w e) in H by (unfold lift; by rewrite He).
    discriminate. }
  destruct (eventFactories w) as [ef|] eqn:Hef; cycle 1.
  { unfold createEvent in H.
    rewrite (bind_Ok _ _ w w N) in H by (unfold lift; by rewrite Hn).
    rewrite (bind_Ok _ _ w w E) in H by (unfold lift; by rewrite He).
    erewrite bind_Throw in H
      by (unfold read_eventFactories; rewrite Hef; reflexivity).
    discriminate. }
  destruct (ef !! E) as [m|] eqn:Hm; cycle 1.
  { unfold createEvent in H.
    rewrite (bind_Ok _ _ w w N) in H by (unfold lift; by rewrite Hn).
    rewrite (bind_Ok _ _ w w E) in H by (unfold lift; by rewrite He).
    erewrite bind_Throw in H
      by (unfold read_eventFactories; rewrite Hef, Hm; reflexivity).
    discriminate. }
  destruct (JsMap.get N m) as [g|] eqn:Hg; cycle 1.
  { unfold createEvent in H.
    rewrite (bind_Ok _ _ w w N) in H by (unfold lift; by rewrite Hn).
    rewrite (bind_Ok _ _ w w E) in H by (unfold lift; by rewrite He).
    rewrite (bind_Ok _ _ w w m) in H
      by (unfold read_eventFactories; by rewrite Hef, Hm).
    rewrite (JsMap_has_None _ _ Hg) in H. discriminate. }
  destruct (call g [args] w) as [[out|e] w1] eqn:Hcall; cycle 1.
  { unfold createEvent in H.
    rewrite (bind_Ok _ _ w w N) in H by (unfold lift; by rewrite Hn).
    rewrite (bind_Ok _ _ w w E) in H by (unfold lift; by rewrite He).
    rewrite (bind_Ok _ _ w w m) in H
      by (unfold read_eventFactories; by rewrite Hef, Hm).
    rewrite (JsMap_has_Some _ _ _ Hg), Hg in H. simpl default in H.
    rewrite (bind_Throw _ _ _ _ _ Hcall) in H. discriminate. }
  rewrite (createEvent_registered this et n args g out E N ef m w w1) in H by done.
  injection H as <- <-.
  exists E, N, ef, m, g, out, w1. done.
Qed.

Lemma enriched_event_lookup (E N id stamp : string) (o : gmap string value) :
  E = "CREATE" \/ E = "UPDATE" \/ E = "DELETE" ->
  let e := enriched_event E N id stamp o in
  e !! "id" = Some (VStr id)
  /\ e !! "getId" = Some (VThunk (VStr id))
  /\ e !! "eventName" = Some (VStr (E +:+ N))
  /\ e !! "getEventName" = Some (VThunk (VStr (E +:+ N)))
  /\ e !! (toLowerCase E +:+ "Time") = Some (VStr stamp)
  /\ e !! "generateId" = o !! "generateId"
  /\ e !! "modelName" = o !! "modelName"
  /\ e !! "eventType" = o !! "eventType".
Proof.
  intros HE e. subst e. unfold enriched_event.
  destruct HE as [-> | [-> | ->]]; simpl toLowerCase; simpl String.append;
    repeat split;
    first [ by apply lookup_union_Some_l
          | rewrite lookup_union_r by done;
            first [ by apply lookup_union_Some_l
                  | rewrite lookup_union_r by done;
                    first [ by apply lookup_union_Some_l
                          | by rewrite lookup_union_r ] ] ].
Qed.

(** An object that was not frozen does change under assignment. *)
Lemma unfrozen_mutable (props : gmap string value) : ~ immutable (VObj false props).
Proof.
  intros [Hset _].
  destruct (props !! "x") as [v|] eqn:Hx.
  - destruct (Hset true "x" (VThunk v)) as [[e He] | He]; [discriminate|].
    injection He as He.
    assert (Hl : <["x" := VThunk v]> props !! "x" = Some (VThunk v))
      by apply lookup_insert_eq.
    rewrite He, Hx in Hl. injection Hl as Hl.
    clear -Hl. induction v; try discriminate. injection Hl as Hl. auto.
  - destruct (Hset true "x" VNull) as [[e He] | He]; [discriminate|].
    injection He as He.
    assert (Hl : <["x" := VNull]> props !! "x" = Some VNull)
      by apply lookup_insert_eq.
    rewrite He, Hx in Hl. discriminate.
Qed.

Lemma frozen_immutable (props : gmap string value) : immutable (VObj true props).
Proof.
  split.
  - intros [] k x; simpl; eauto.
  - intros strict k. simpl.
    destruct (bool_decide (is_Some (props !! k)) && strict); eauto.
Qed.

(** ** Computations that only apply functions *)

Lemma calls_only_refl (w : world) : calls_only w w.
Proof.
  repeat split. exists []. split; [by rewrite app_nil_r | constructor].
Qed.

Lemma calls_only_trans (w1 w2 w3 : world) :
  calls_only w1 w2 -> calls_only w2 w3 -> calls_only w1 w3.
Proof.
  intros (Hm & He & Hs & es & Ht & Hc) (Hm' & He' & Hs' & es' & Ht' & Hc').
  repeat split; try congruence.
  exists (es ++ es'). split.
  - by rewrite Ht', Ht, app_assoc.
  - by apply Forall_app.
Qed.

Lemma quiet_ret {A} (a : A) : quiet (ret a).
Proof. intros w r w' H. injection H as <- <-. apply calls_only_refl. Qed.

Lemma quiet_throw {A} (e : error) : quiet (@throw A e).
Proof. intros w r w' H. injection H as <- <-. apply calls_only_refl. Qed.

Lemma quiet_lift {A} (r : outcome A) : quiet (lift r).
Proof. intros w r' w' H. injection H as <- <-. apply calls_only_refl. Qed.

Lemma quiet_bind {A B} (c : M A) (k : A -> M B) :
  quiet c -> (forall a, quiet (k a)) -> quiet (bind c k).
Proof.
  intros Hc Hk w r w'. unfold bind.
  destruct (c w) as [[a|e] w1] eqn:E; intros H.
  - eapply calls_only_trans; [by eapply Hc | by eapply Hk].
  - injection H as <- <-. by eapply Hc.
Qed.

Lemma quiet_emit_call (f : value) (args : list value) : quiet (emit (Called f args)).
Proof.
  intros w r w' H. injection H as <- <-. repeat split.
  exists [Called f args]. split; [done | by repeat constructor].
Qed.

Lemma quiet_call (f : value) (args : list value) : quiet (call f args).
Proof.
  destruct f; simpl; try apply quiet_throw;
    apply quiet_bind; try apply quiet_emit_call; intros _.
  - apply quiet_lift.
  - intros w r w' H. injection H as <- <-. repeat split.
    exists []. split; [by rewrite app_nil_r | constructor].
  - apply quiet_ret.
Qed.

Lemma quiet_read_modelFactories : quiet read_modelFactories.
Proof.
  intros w r w'. unfold read_modelFactories.
  destruct (modelFactories w); intros H; injection H as <- <-;
    apply calls_only_refl.
Qed.

Lemma quiet_read_eventFactories (E : string) : quiet (read_eventFactories E).
Proof.
  intros w r w'. unfold read_eventFactories.
  destruct (eventFactories w) as [ef|]; [destruct (ef !! E)|];
    intros H; injection H as <- <-; apply calls_only_refl.
Qed.

Lemma quiet_timeStamp : quiet timeStamp.
Proof.
  intros w r w' H. injection H as <- <-. repeat split.
  exists []. split; [by rewrite app_nil_r | constructor].
Qed.

Lemma quiet_addId (o : gmap string value) : quiet (addId o).
Proof. apply quiet_bind; [apply quiet_call | intros; apply quiet_ret]. Qed.

Lemma quiet_addEventName (o : gmap string value) : quiet (addEventName o).
Proof. apply quiet_bind; [apply quiet_lift | intros; apply quiet_ret]. Qed.

Lemma quiet_addTimestamp (o : gmap string value) : quiet (addTimestamp o).
Proof.
  apply quiet_bind; [apply quiet_lift | intros].
  apply quiet_bind; [apply quiet_timeStamp | intros; apply quiet_ret].
Qed.

Lemma quiet_enrichEvent (o : gmap string value) : quiet (enrichEvent o).
Proof.
  unfold enrichEvent, compose; simpl.
  repeat apply quiet_bind; intros;
    auto using quiet_ret, quiet_addId, quiet_addEventName, quiet_addTimestamp.
Qed.

Lemma quiet_enrichModel (o : gmap string value) : quiet (enrichModel o).
Proof.
  unfold enrichModel, compose; simpl.
  repeat apply quiet_bind; intros;
    auto using quiet_ret, quiet_addId, quiet_addTimestamp.
  unfold addModelName. apply quiet_ret.
Qed.

Lemma quiet_Model_create (f args : value) (N : string) : quiet (Model_create f args N).
Proof.
  unfold Model_create.
  apply quiet_bind; [apply quiet_call | intros].
  apply quiet_bind; [apply quiet_enrichModel | intros; apply quiet_ret].
Qed.

Lemma quiet_createModel (this : ModelFactoryInstance) (n args : value) :
  quiet (createModel Model_create this n args).
Proof.
  unfold createModel.
  apply quiet_bind; [apply quiet_lift | intros N].
  apply quiet_bind; [apply quiet_read_modelFactories | intros mf].
  destruct (JsMap.has N mf); [|apply quiet_throw].
  apply quiet_bind; [apply quiet_Model_create | intros; apply quiet_ret].
Qed.

Lemma quiet_createEvent (this : ModelFactoryInstance) (et n args : value) :
  quiet (createEvent this et n args).
Proof.
  unfold createEvent.
  apply quiet_bind; [apply quiet_lift | intros N].
  apply quiet_bind; [apply quiet_lift | intros E].
  apply quiet_bind; [apply quiet_read_eventFactories | intros m].
  destruct (JsMap.has N m); [|apply quiet_throw].
  apply quiet_bind; [apply quiet_call | intros out].
  apply quiet_bind; [apply quiet_enrichEvent | intros; apply quiet_ret].
Qed.

(** ** Assembly of models *)



(** Whatever [Model.create] resolves to is a fresh attribute bag. *)
Lemma Model_create_object (f args v : value) (N : string) (w w' : world) :
  Model_create f args N w = (Ok v, w') -> exists props, v = VObj false props.
Proof.
  unfold Model_create. intros H.
  apply bind_Ok_inv in H as (out & w1 & _ & H).
  apply bind_Ok_inv in H as (enriched & w2 & _ & H).
  injection H as <- _. eauto.
Qed.

Section AnyModelModule.
Variable Model_create_impl : value -> value -> string -> M value.

Lemma createModel_invalid (this : ModelFactoryInstance) (n args : value) (w : world) :
  is_string n = false ->
  createModel Model_create_impl this n args w = (Throw InvalidArgument, w).
Proof.
  intros Hn. unfold createModel.
  by rewrite (bind_Throw _ _ w w InvalidArgument)
    by (unfold lift; by rewrite checkModelName_not_string).
Qed.

Lemma createModel_unregistered (this : ModelFactoryInstance) (s : string)
  (args : value) (mf : JsMap.t) (w : world) :
  modelFactories w = Some mf ->
  JsMap.get (toUpperCase s) mf = None ->
  createModel Model_create_impl this (VStr s) args w = (Throw UnregisteredModel, w).
Proof.
  intros Hmf Hget. unfold createModel.
  rewrite (bind_Ok _ _ w w (toUpperCase s)) by done.
  rewrite (bind_Ok _ _ w w mf) by (unfold read_modelFactories; by rewrite Hmf).
  by rewrite (JsMap_has_None _ _ Hget).
Qed.

Lemma createModel_registered (this : ModelFactoryInstance) (s : string)
  (args f : value) (mf : JsMap.t) (w : world) :
  modelFactories w = Some mf ->
  JsMap.get (toUpperCase s) mf = Some f ->
  createModel Model_create_impl this (VStr s) args w =
  (model <- Model_create_impl f args (toUpperCase s) ;; ret (freeze model)) w.
Proof.
  intros Hmf Hget. unfold createModel.
  rewrite (bind_Ok _ _ w w (toUpperCase s)) by done.
  rewrite (bind_Ok _ _ w w mf) by (unfold read_modelFactories; by rewrite Hmf).
  by rewrite (JsMap_has_Some _ _ _ Hget), Hget.
Qed.

End AnyModelModule.

(** A model that [createModel] returns is a frozen attribute bag. *)
Lemma createModel_Ok_frozen (this : ModelFactoryInstance) (n args v : value)
  (w w' : world) :
  createModel Model_create this n args w = (Ok v, w') ->
  exists props, v = VObj true props.
Proof.
  unfold createModel. intros H.
  apply bind_Ok_inv in H as (N & w1 & _ & H).
  apply bind_Ok_inv in H as (mf & w2 & _ & H).
  destruct (JsMap.has N mf); [|discriminate].
  apply bind_Ok_inv in H as (model & w3 & Hc & H).
  apply Model_create_object in Hc as [props ->].
  injection H as <- _. eauto.
Qed.

(** ** Registration *)

Lemma registerModel_fresh (this : ModelFactoryInstance) (s : string) (f : value)
  (mf : JsMap.t) (w : world) :
  modelFactories w = Some mf ->
  JsMap.get (toUpperCase s) mf = None ->
  is_function f = true ->
  registerModel this (VStr s) f w =
  (Ok tt, World (Some (JsMap.set (toUpperCase s) f mf)) (eventFactories w)
                (singleton w) (instances w) (uuid_calls w) (clock_reads w)
                (trace w)).
Proof.
  intros Hmf Hget Hf. unfold registerModel.
  rewrite (bind_Ok _ _ w w (toUpperCase s)) by done.
  rewrite (bind_Ok _ _ w w mf) by (unfold read_modelFactories; by rewrite Hmf).
  by rewrite (JsMap_has_None _ _ Hget), Hf.
Qed.

Lemma registerModel_taken (this : ModelFactoryInstance) (s : string) (f g : value)
  (mf : JsMap.t) (w : world) :
  modelFactories w = Some mf ->
  JsMap.get (toUpperCase s) mf = Some f ->
  registerModel this (VStr s) g w = (Ok tt, w).
Proof.
  intros Hmf Hget. unfold registerModel.
  rewrite (bind_Ok _ _ w w (toUpperCase s)) by done.
  rewrite (bind_Ok _ _ w w mf) by (unfold read_modelFactories; by rewrite Hmf).
  by rewrite (JsMap_has_Some _ _ _ Hget).
Qed.

Lemma registerEvent_callable (this : ModelFactoryInstance) (et : value)
  (s E : string) (g : value) (ef : gmap string JsMap.t) (m : JsMap.t) (w : world) :
  checkEventType et = Ok E ->
  eventFactories w = Some ef ->
  ef !! E = Some m ->
  is_function g = true ->
  registerEvent this et (VStr s) g w =
  (Ok tt, World (modelFactories w)
                (Some (<[E := JsMap.set (toUpperCase s) g m]> ef))
                (singleton w) (instances w) (uuid_calls w) (clock_reads w)
                (trace w)).
Proof.
  intros He Hef Hm Hg. unfold registerEvent.
  rewrite (bind_Ok _ _ w w (toUpperCase s)) by done.
  rewrite (bind_Ok _ _ w w E) by (unfold lift; by rewrite He).
  rewrite Hg.
  rewrite (bind_Ok _ _ w w m) by (unfold read_eventFactories; by rewrite Hef, Hm).
  unfold write_eventFactories. by rewrite Hef.
Qed.

Lemma createEvent_invalid (this : ModelFactoryInstance) (et n args : value) (w : world) :
  is_string n = false ->
  createEvent this et n args w = (Throw InvalidArgument, w).
Proof.
  intros Hn. unfold createEvent.
  by rewrite (bind_Throw _ _ w w InvalidArgument)
    by (unfold lift; by rewrite checkModelName_not_string).
Qed.

Lemma createEvent_unregistered (this : ModelFactoryInstance) (et : value)
  (s E : string) (args : value) (ef : gmap string JsMap.t) (m : JsMap.t) (w : world) :
  checkEventType et = Ok E ->
  eventFactories w = Some ef ->
  ef !! E = Some m ->
  JsMap.get (toUpperCase s) m = None ->
  createEvent this et (VStr s) args w = (Throw UnregisteredModelEvent, w).
Proof.
  intros He Hef Hm Hget. unfold createEvent.
  rewrite (bind_Ok _ _ w w (toUpperCase s)) by done.
  rewrite (bind_Ok _ _ w w E) by (unfold lift; by rewrite He).
  rewrite (bind_Ok _ _ w w m) by (unfold read_eventFactories; by rewrite Hef, Hm).
  by rewrite (JsMap_has_None _ _ Hget).
Qed.

(** [createEvent] on a registered pair hands the arguments to the
    registered constructor and enriches what it resolves to. *)
Lemma createEvent_invokes (this : ModelFactoryInstance) (et : value)
  (s E : string) (args g : value) (ef : gmap string JsMap.t) (m : JsMap.t) (w : world) :
  checkEventType et = Ok E ->
  eventFactories w = Some ef ->
  ef !! E = Some m ->
  JsMap.get (toUpperCase s) m = Some g ->
  createEvent this et (VStr s) args w =
  (event <- call g [args] ;;
   enriched <- enrichEvent
                 (assign (own_props event) (event_options E (toUpperCase s))) ;;
   ret (freeze (VObj false enriched))) w.
Proof.
  intros He Hef Hm Hget. unfold createEvent.
  rewrite (bind_Ok _ _ w w (toUpperCase s)) by done.
  rewrite (bind_Ok _ _ w w E) by (unfold lift; by rewrite He).
  rewrite (bind_Ok _ _ w w m) by (unfold read_eventFactories; by rewrite Hef, Hm).
  by rewrite (JsMap_has_Some _ _ _ Hget), Hget.
Qed.

(** ** The event-naming protocol *)

(** C1: for an event type among CREATE, UPDATE and DELETE (in any casing)
    and a model-type name, every event [createEvent] produces answers
    [getEventName()] with the uppercase event type followed, without a
    separator, by the uppercase model-type name; the arguments, the state
    and whatever the registered constructor returned play no part. *)
Theorem event_name_protocol (this : ModelFactoryInstance) (et n : string)
  (args ev : value) (w w' : world) :
  createEvent this (VStr et) (VStr n) args w = (Ok ev, w') ->
  (toUpperCase et = "CREATE" \/ toUpperCase et = "UPDATE"
   \/ toUpperCase et = "DELETE")
  /\ forall w2 : world,
      result (invoke ev "getEventName" []) w2
      = Ok (VStr (toUpperCase et +:+ toUpperCase n)).
Proof.
  intros H.
  apply createEvent_Ok_inv in H
    as (E & N & ef & m & g & out & w1 & Hn & He & _ & _ & _ & _ & -> & _).
  injection Hn as <-.
  destruct (checkEventType_Ok _ _ He) as [(s & [= <-] & ->) HE].
  split; [done|]. intros w2.
  destruct (enriched_event_lookup (toUpperCase et) (toUpperCase n)
              (uuid (uuid_calls w1)) (utc_now (clock_reads w1))
              (assign (own_props out)
                 (event_options (toUpperCase et) (toUpperCase n))) HE)
    as (_ & _ & _ & Hget & _).
  unfold result, invoke, read_prop, bind, ret, get. simpl own_props.
  by rewrite Hget.
Qed.

(** C10: in every event [createEvent] returns, the values the pipeline
    derives stand in the place of whatever the registered constructor
    returned under the same keys: [modelName] and [eventType] hold the
    canonical forms, [id] and [getId] a freshly drawn identifier,
    [eventName] and [getEventName] the protocol's name; the frozen event
    also carries the identifier generator under [generateId]. *)
Theorem pipeline_values_take_precedence (this : ModelFactoryInstance)
  (et n args ev : value) (w w' : world) :
  createEvent this et n args w = (Ok ev, w') ->
  exists (E N : string) (k : nat) (props : gmap string value),
    checkEventType et = Ok E
    /\ checkModelName n = Ok N
    /\ uuid_calls w' = S k
    /\ ev = VObj true props
    /\ props !! "id" = Some (VStr (uuid k))
    /\ props !! "getId" = Some (VThunk (VStr (uuid k)))
    /\ props !! "modelName" = Some (VStr N)
    /\ props !! "eventType" = Some (VStr E)
    /\ props !! "eventName" = Some (VStr (E +:+ N))
    /\ props !! "getEventName" = Some (VThunk (VStr (E +:+ N)))
    /\ props !! "generateId" = Some VUuid.
Proof.
  intros H.
  apply createEvent_Ok_inv in H
    as (E & N & ef & m & g & out & w1 & Hn & He & _ & _ & _ & _ & -> & ->).
  destruct (checkEventType_Ok _ _ He) as [_ HE].
  destruct (enriched_event_lookup E N (uuid (uuid_calls w1))
              (utc_now (clock_reads w1))
              (assign (own_props out) (event_options E N)) HE)
    as (Hid & Hgid & Hen & Hgen & _ & Hg & Hmn & Hty).
  destruct (event_options_lookup (own_props out) E N) as (Og & Oty & Omn).
  exists E, N, (uuid_calls w1),
    (enriched_event E N (uuid (uuid_calls w1)) (utc_now (clock_reads w1))
       (assign (own_props out) (event_options E N))).
  repeat split; try done; congruence.
Qed.

(** ** Immutability *)

(** C5: every model [createModel] returns and every event [createEvent]
    returns is immutable: an attempt to add, change or delete an attribute
    is rejected (strict code) or ignored (sloppy code), and the object is
    afterwards what it was. *)
Theorem assembled_instances_immutable (this : ModelFactoryInstance)
  (et n args v : value) (w w' : world) :
  createModel Model_create this n args w = (Ok v, w')
  \/ createEvent this et n args w = (Ok v, w') ->
  immutable v.
Proof.
  intros [H | H].
  - apply createModel_Ok_frozen in H as [props ->]. apply frozen_immutable.
  - apply createEvent_Ok_inv in H
      as (E & N & ef & m & g & out & w1 & _ & _ & _ & _ & _ & _ & -> & _).
    apply frozen_immutable.
Qed.

(** ** Rejections *)

(** C6: [createModel] on a name without a registered constructor rejects
    with UnregisteredModel, [createEvent] on a pair without one rejects with
    UnregisteredModelEvent, and either leaves the whole state as it found
    it: the registries are unchanged and the trace has no new call. *)
Theorem unregistered_rejected_without_effects
  (Model_create_impl : value -> value -> string -> M value)
  (this : ModelFactoryInstance) (s : string) (args : value) (w : world) :
  (forall mf : JsMap.t,
      modelFactories w = Some mf ->
      JsMap.get (toUpperCase s) mf = None ->
      createModel Model_create_impl this (VStr s) args w
      = (Throw UnregisteredModel, w))
  /\ (forall (et : value) (E : string) (ef : gmap string JsMap.t) (m : JsMap.t),
      checkEventType et = Ok E ->
      eventFactories w = Some ef ->
      ef !! E = Some m ->
      JsMap.get (toUpperCase s) m = None ->
      createEvent this et (VStr s) args w = (Throw UnregisteredModelEvent, w)).
Proof.
  split.
  - intros mf Hmf Hget. by eapply createModel_unregistered.
  - intros et E ef m He Hef Hm Hget. by eapply createEvent_unregistered.
Qed.

(** C7, as the code has it: the four operations that take a model-type name
    fail with InvalidArgument whenever the name is not a string, in any
    state, even one in which the registries do not exist yet and could not
    be read, and leave that state untouched; every string, the empty one
    included, passes the check and is canonicalised to its uppercase. *)
Theorem non_string_name_rejected
  (Model_create_impl : value -> value -> string -> M value)
  (this : ModelFactoryInstance) (name : value) (w : world) :
  is_string name = false ->
  (forall f, registerModel this name f w = (Throw InvalidArgument, w))
  /\ (forall et f, registerEvent this et name f w = (Throw InvalidArgument, w))
  /\ (forall args,
         createModel Model_create_impl this name args w
         = (Throw InvalidArgument, w))
  /\ (forall et args,
         createEvent this et name args w = (Throw InvalidArgument, w))
  /\ (forall s : string, checkModelName (VStr s) = Ok (toUpperCase s)).
Proof.
  intros Hn.
  assert (Hc : lift (checkModelName name) w = (Throw InvalidArgument, w))
    by (unfold lift; by rewrite checkModelName_not_string).
  repeat split.
  - intros f. unfold registerModel. by rewrite (bind_Throw _ _ _ _ _ Hc).
  - intros et f. unfold registerEvent. by rewrite (bind_Throw _ _ _ _ _ Hc).
  - intros args. by apply createModel_invalid.
  - intros et args. by apply createEvent_invalid.
Qed.

(** ** Case-insensitive lookup *)

Lemma same_name_upper (n : string) : same_name n (toUpperCase n).
Proof. unfold same_name. by rewrite toUpperCase_idem. Qed.

Lemma same_name_lower (n : string) : same_name n (toLowerCase n).
Proof. unfold same_name. by rewrite toUpperCase_toLowerCase. Qed.

(** C8: two casings of one name are the same name to [createModel]: the two
    calls are the same computation, and when the name is registered both
    resolve the one registered constructor and succeed with what
    [Model.create] makes of it. *)
Theorem model_names_case_insensitive
  (Model_create_impl : value -> value -> string -> M value)
  (this : ModelFactoryInstance) (n1 n2 : string) (args : value) (w : world) :
  same_name n1 n2 ->
  createModel Model_create_impl this (VStr n1) args w
  = createModel Model_create_impl this (VStr n2) args w
  /\ (forall (mf : JsMap.t) (f : value),
      modelFactories w = Some mf ->
      JsMap.get (toUpperCase n1) mf = Some f ->
      createModel Model_create_impl this (VStr n2) args w
      = (model <- Model_create_impl f args (toUpperCase n1) ;;
         ret (freeze model)) w
      /\ forall (model : value) (w1 : world),
          Model_create_impl f args (toUpperCase n1) w = (Ok model, w1) ->
          createModel Model_create_impl this (VStr n1) args w
          = (Ok (freeze model), w1)
          /\ createModel Model_create_impl this (VStr n2) args w
             = (Ok (freeze model), w1)).
Proof.
  unfold same_name. intros Hsame. split.
  - unfold createModel. simpl checkModelName. by rewrite Hsame.
  - intros mf f Hmf Hget.
    assert (H2 : createModel Model_create_impl this (VStr n2) args w
                 = (model <- Model_create_impl f args (toUpperCase n1) ;;
                    ret (freeze model)) w).
    { rewrite Hsame in *. by apply createModel_registered with (mf := mf). }
    split; [done|]. intros model w1 Hc. split.
    + rewrite (createModel_registered _ this n1 args f mf w Hmf Hget).
      by rewrite (bind_Ok _ _ _ _ _ Hc).
    + rewrite H2. by rewrite (bind_Ok _ _ _ _ _ Hc).
Qed.

(** ** One registry behind every instance *)

(** C9: the registries are module-level variables that the constructor
    reassigns.  After a further [new ModelFactoryInstance()] an instance
    built earlier lists no model and finds no model or event constructor,
    whatever had been registered; and which instance a method is called on
    never matters. *)
Theorem constructor_resets_shared_registry
  (Model_create_impl : value -> value -> string -> M value)
  (old : ModelFactoryInstance) (w : world) :
  let w' := exec new_ModelFactoryInstance w in
  listModels old w' = (Ok [], w')
  /\ (forall (s : string) (args : value),
         createModel Model_create_impl old (VStr s) args w'
         = (Throw UnregisteredModel, w'))
  /\ (forall (et : value) (E s : string) (args : value),
         checkEventType et = Ok E ->
         createEvent old et (VStr s) args w'
         = (Throw UnregisteredModelEvent, w'))
  /\ (forall other : ModelFactoryInstance,
         registerModel other = registerModel old
         /\ registerEvent other = registerEvent old
         /\ listModels other = listModels old
         /\ createModel Model_create_impl other
            = createModel Model_create_impl old
         /\ createEvent other = createEvent old).
Proof.
  intros w'. split; [reflexivity|]. split; [|split; [|done]].
  - intros s args. by apply createModel_unregistered with (mf := JsMap.empty).
  - intros et E s args He.
    destruct (checkEventType_Ok _ _ He) as [_ HE].
    apply createEvent_unregistered
      with (E := E) (m := JsMap.empty)
           (ef := {[ "CREATE" := JsMap.empty; "UPDATE" := JsMap.empty;
                     "DELETE" := JsMap.empty ]}); try done.
    by destruct HE as [-> | [-> | ->]].
Qed.

(** ** Registration policies *)

(** C2: the two registries treat a second registration differently.  Once
    [registerModel(n, f)] has taken effect, [registerModel(n, g)] changes
    nothing and [createModel(n, args)] still hands [args] to [f]; after
    [registerEvent(t, n, f)] a [registerEvent(t, n, g)] with a callable [g]
    replaces the entry, and [createEvent(t, n, args)] calls [g]. *)
Theorem registration_policies
  (Model_create_impl : value -> value -> string -> M value)
  (this : ModelFactoryInstance) (n : string) (f g args : value) (w : world) :
  is_function f = true ->
  (forall mf : JsMap.t,
      modelFactories w = Some mf ->
      JsMap.get (toUpperCase n) mf = None ->
      let w1 := exec (registerModel this (VStr n) f) w in
      registerModel this (VStr n) g w1 = (Ok tt, w1)
      /\ createModel Model_create_impl this (VStr n) args w1
         = (model <- Model_create_impl f args (toUpperCase n) ;;
            ret (freeze model)) w1)
  /\ (forall (et : value) (E : string) (ef : gmap string JsMap.t) (m : JsMap.t),
      checkEventType et = Ok E ->
      eventFactories w = Some ef ->
      ef !! E = Some m ->
      is_function g = true ->
      let w1 := exec (registerEvent this et (VStr n) f) w in
      let w2 := exec (registerEvent this et (VStr n) g) w1 in
      createEvent this et (VStr n) args w2
      = (event <- call g [args] ;;
         enriched <- enrichEvent
                       (assign (own_props event)
                          (event_options E (toUpperCase n))) ;;
         ret (freeze (VObj false enriched))) w2).
Proof.
  intros Hf. split.
  - intros mf Hmf Hget w1. subst w1. unfold exec.
    rewrite (registerModel_fresh this n f mf w Hmf Hget Hf). simpl.
    split.
    + eapply registerModel_taken; [done | apply JsMap_get_set_eq].
    + eapply createModel_registered; [done | apply JsMap_get_set_eq].
  - intros et E ef m He Hef Hm Hg w1 w2. subst w1 w2. unfold exec.
    rewrite (registerEvent_callable this et n E f ef m w He Hef Hm Hf). simpl.
    erewrite registerEvent_callable; [| done | done | apply lookup_insert_eq | done].
    simpl.
    eapply createEvent_invokes; [done | done | apply lookup_insert_eq |].
    apply JsMap_get_set_eq.
Qed.

(** ** Models enriched *)



Lemma call_outcome (f : value) (args : list value) (w : world) :
  is_function f = true ->
  exists w1 : world,
    call f args w = (result (call f args) w, w1)
    /\ trace w1 = trace w ++ [Called f args].
Proof.
  destruct f; try discriminate; intros _; eexists; split; reflexivity.
Qed.


(** ** The add-model use case *)

Lemma getInstance_Ok (w : world) :
  exists factory wa,
    ModelFactory_getInstance w = (Ok factory, wa) /\ trace wa = trace w.
Proof.
  unfold ModelFactory_getInstance. destruct (singleton w); simpl; eauto.
Qed.

Lemma logged_logged (es es' : list effect) (w : world) :
  logged es' (logged es w) = logged (es ++ es') w.
Proof. unfold logged. simpl. by rewrite app_assoc. Qed.

Lemma save_run (id model : value) (w : world) :
  save id model w = (repository_save id model, logged [Saved id model] w).
Proof. reflexivity. Qed.

Lemma notify_run (name event : value) (w : world) :
  notify name event w
  = (observer_notify name event, logged [Notified name event] w).
Proof. reflexivity. Qed.

Lemma invoke_thunk (props : gmap string value) (frozen : bool) (k : string)
  (v : value) (w : world) :
  get props k = VThunk v ->
  invoke (VObj frozen props) k [] w = (Ok v, logged [Called (VThunk v) []] w).
Proof.
  intros Hget. unfold invoke, read_prop, bind, ret. simpl own_props.
  by rewrite Hget.
Qed.

(** What a run shows in the trace: function applications first, then at
    most the save, then at most the notification, which is there whenever
    the model is returned. *)
Lemma addModel_run_effects (modelName input : value) (w w' : world)
  (r : outcome value) :
  addModel_run modelName input w (r, w') ->
  exists calls : list effect,
    Forall is_call calls
    /\ ((trace w' = trace w ++ calls /\ exists e, r = Throw e)
        \/ (exists id model e,
              trace w' = trace w ++ calls ++ [Saved id model] /\ r = Throw e)
        \/ (exists id model name event,
              trace w' = trace w ++ calls
                         ++ [Saved id model; Called (VThunk name) [];
                             Notified name event]
              /\ (r = Ok model \/ exists e, r = Throw e))).
Proof.
  intros H. inversion H; subst;
    match goal with
    | Hq : calls_only _ _, Ht : trace _ = trace w |- _ =>
        destruct Hq as (_ & _ & _ & calls & Hcalls & Hall);
        rewrite Ht in Hcalls; exists calls; split; [exact Hall|]
    end.
  - left. eauto.
  - left. eauto.
  - right. left. exists (get (own_props model) "id"), model, e.
    simpl. by rewrite Hcalls, <- app_assoc.
  - right. right. exists (get (own_props model) "id"), model, name, event.
    simpl. rewrite Hcalls, <- app_assoc. eauto.
  - right. right. exists (get (own_props model) "id"), model, name, event.
    simpl. rewrite Hcalls, <- app_assoc. eauto.
Qed.

(** C3: one [addModel(input)] creates the model, then the CREATE event
    from that model, then saves the model under its id, then notifies the
    observer with the event's name and the event, in this order; the run
    ends at the first step that rejects, with that reason and without any
    later step, and the model is returned only after all four. *)
Theorem addModel_steps_in_order (modelName input : value) (w : world) :
  addModel_run modelName input w (addModel Model_create modelName input w).
Proof.
  destruct (getInstance_Ok w) as (factory & wa & Hinst & Htr).
  unfold addModel. rewrite (bind_Ok _ _ _ _ _ Hinst).
  destruct (createModel Model_create factory modelName input wa)
    as [[model|e] w1] eqn:Hmodel; cycle 1.
  { rewrite (bind_Throw _ _ _ _ _ Hmodel).
    eapply model_rejected; eauto. by eapply quiet_createModel. }
  rewrite (bind_Ok _ _ _ _ _ Hmodel).
  pose proof (quiet_createModel _ _ _ _ _ _ Hmodel) as Hq1.
  destruct (createEvent factory (VStr "CREATE") modelName model w1)
    as [[event|e] w2] eqn:Hevent; cycle 1.
  { rewrite (bind_Throw _ _ _ _ _ Hevent).
    eapply event_rejected; eauto.
    eapply calls_only_trans; [done | by eapply quiet_createEvent]. }
  rewrite (bind_Ok _ _ _ _ _ Hevent).
  assert (Hq2 : calls_only wa w2).
  { eapply calls_only_trans; [done | by eapply quiet_createEvent]. }
  destruct (createModel_Ok_frozen _ _ _ _ _ _ Hmodel) as [mprops ->].
  destruct (createEvent_Ok_inv _ _ _ _ _ _ _ Hevent)
    as (E & N & ef & m & g & out & w3 & _ & He & _ & _ & _ & _ & -> & _).
  destruct (checkEventType_Ok _ _ He) as [_ HE].
  destruct (enriched_event_lookup E N (uuid (uuid_calls w3))
              (utc_now (clock_reads w3))
              (assign (own_props out) (event_options E N)) HE)
    as (_ & _ & _ & Hname & _).
  set (name := VStr (E +:+ N)) in *.
  set (eprops := enriched_event _ _ _ _ _) in *.
  set (event := VObj true eprops) in *.
  set (model := VObj true mprops) in *.
  set (id := get (own_props model) "id").
  assert (Hgetter : get (own_props event) "getEventName" = VThunk name).
  { unfold get. simpl own_props. by rewrite Hname. }
  rewrite (bind_Ok _ _ w2 w2 id) by reflexivity.
  destruct (repository_save id model) as [saved|e] eqn:Hsave; cycle 1.
  { erewrite bind_Throw by (rewrite save_run, Hsave; reflexivity).
    eapply save_rejected; eauto. }
  erewrite bind_Ok by (rewrite save_run, Hsave; reflexivity).
  rewrite (bind_Ok _ _ _ _ _
             (invoke_thunk eprops true "getEventName" name _ Hgetter)).
  rewrite logged_logged. simpl app.
  destruct (observer_notify name event) as [notified|e] eqn:Hnotify.
  - erewrite bind_Ok by (rewrite notify_run, Hnotify; reflexivity).
    rewrite logged_logged. simpl app. unfold ret.
    eapply completed; eauto.
  - erewrite bind_Throw by (rewrite notify_run, Hnotify; reflexivity).
    rewrite logged_logged. simpl app.
    eapply notify_rejected; eauto.
Qed.

End Facts.

(** * Further properties of the factory *)

Section MoreFacts.
Context {env : Host}.

(** ** Names and event types *)

Lemma checkEventType_unknown (et : value) :
  unknown_event_type et -> checkEventType et = Throw InvalidEventType.
Proof.
  intros Hu. destruct et as [| | | |s| | | |]; try reflexivity.
  destruct (Hu s eq_refl) as (Hc & Hup & Hd). simpl.
  case_bool_decide as Hin; [|reflexivity].
  simpl in Hin. rewrite !elem_of_cons, elem_of_nil in Hin.
  destruct Hin as [? | [? | [? | []]]]; congruence.
Qed.

Lemma createEventName_Ok (t n : value) (name : string) :
  createEventName t n = Ok name ->
  exists E N, checkEventType t = Ok E /\ checkModelName n = Ok N
              /\ name = E +:+ N.
Proof.
  unfold createEventName.
  destruct (checkEventType t) as [E|e]; [|discriminate].
  destruct (checkModelName n) as [N|e]; [|discriminate].
  intros [= <-]. eauto.
Qed.

(** X1: The name of an event tells its pair: two pairs that [createEventName]
    maps to one name have the same canonical event type and the same
    canonical model-type name, so listeners of different pairs never share
    a name. *)
Theorem event_names_distinct (t1 n1 t2 n2 : value) (name : string) :
  createEventName t1 n1 = Ok name ->
  createEventName t2 n2 = Ok name ->
  checkEventType t1 = checkEventType t2
  /\ checkModelName n1 = checkModelName n2.
Proof.
  intros H1 H2.
  apply createEventName_Ok in H1 as (E1 & N1 & Ht1 & Hn1 & ->).
  apply createEventName_Ok in H2 as (E2 & N2 & Ht2 & Hn2 & Heq).
  rewrite Ht1, Ht2, Hn1, Hn2.
  destruct (checkEventType_Ok _ _ Ht1) as [_ HE1].
  destruct (checkEventType_Ok _ _ Ht2) as [_ HE2].
  destruct HE1 as [-> | [-> | ->]], HE2 as [-> | [-> | ->]];
    simpl in Heq; try discriminate; injection Heq as Heq;
    change (N1 = N2) in Heq; by subst.
Qed.

(** X2: Event types and model-type names are case-insensitive in every
    operation that takes them: two casings give the same computation. *)
Theorem keys_case_insensitive (this : ModelFactoryInstance)
  (t1 t2 n1 n2 : string) (f args : value) (w : world) :
  same_name t1 t2 ->
  same_name n1 n2 ->
  registerModel this (VStr n1) f w = registerModel this (VStr n2) f w
  /\ registerEvent this (VStr t1) (VStr n1) f w
     = registerEvent this (VStr t2) (VStr n2) f w
  /\ createEvent this (VStr t1) (VStr n1) args w
     = createEvent this (VStr t2) (VStr n2) args w
  /\ createEventName (VStr t1) (VStr n1) = createEventName (VStr t2) (VStr n2).
Proof.
  unfold same_name. intros Ht Hn.
  unfold registerModel, registerEvent, createEvent, createEventName.
  simpl checkModelName. unfold checkEventType. by rewrite Ht, Hn.
Qed.

(** X3: An unknown event type is rejected with the event-type error and
    without touching the state, provided the name is a string: the methods
    check the name first and report a bad name instead, whereas
    [createEventName] checks the event type first and reports it whatever
    the name is. *)
Theorem unknown_event_type_rejected (this : ModelFactoryInstance)
  (et : value) (n : string) (f args bad : value) (w : world) :
  unknown_event_type et ->
  registerEvent this et (VStr n) f w = (Throw InvalidEventType, w)
  /\ createEvent this et (VStr n) args w = (Throw InvalidEventType, w)
  /\ createEventName et bad = Throw InvalidEventType
  /\ (is_string bad = false ->
      registerEvent this et bad f w = (Throw InvalidArgument, w)
      /\ createEvent this et bad args w = (Throw InvalidArgument, w)).
Proof.
  intros Hu. pose proof (checkEventType_unknown et Hu) as He.
  assert (Hl : lift (checkEventType et) w = (Throw InvalidEventType, w))
    by (unfold lift; by rewrite He).
  split; [|split; [|split]].
  - unfold registerEvent.
    rewrite (bind_Ok _ _ w w (toUpperCase n)) by done.
    by rewrite (bind_Throw _ _ _ _ _ Hl).
  - unfold createEvent.
    rewrite (bind_Ok _ _ w w (toUpperCase n)) by done.
    by rewrite (bind_Throw _ _ _ _ _ Hl).
  - unfold createEventName. by rewrite He.
  - intros Hbad.
    assert (Hc : lift (checkModelName bad) w = (Throw InvalidArgument, w))
      by (unfold lift; by rewrite checkModelName_not_string).
    split.
    + unfold registerEvent. by rewrite (bind_Throw _ _ _ _ _ Hc).
    + by apply createEvent_invalid.
Qed.

(** ** What the registries keep *)

Lemma JsMap_set_set (k : string) (v v' : value) (m : JsMap.t) :
  JsMap.set k v (JsMap.set k v' m) = JsMap.set k v m.
Proof.
  induction m as [|[k0 v0] r IH]; simpl.
  - by rewrite String.eqb_refl.
  - destruct (String.eqb k k0) eqn:E; simpl.
    + by rewrite String.eqb_refl.
    + by rewrite E, IH.
Qed.

Lemma JsMap_set_fresh (k : string) (v : value) (m : JsMap.t) :
  JsMap.get k m = None -> JsMap.set k v m = m ++ [(k, v)].
Proof.
  induction m as [|[k0 v0] r IH]; simpl; [done|].
  destruct (String.eqb k k0); [discriminate|].
  intros H. by rewrite IH.
Qed.

(** What a registration does to the state: nothing, or one entry. *)
Lemma registerModel_exec (this : ModelFactoryInstance) (a b : value) (w : world) :
  exec (registerModel this a b) w = w
  \/ exists (s : string) (mf : JsMap.t),
      a = VStr s /\ modelFactories w = Some mf
      /\ JsMap.get (toUpperCase s) mf = None /\ is_function b = true
      /\ exec (registerModel this a b) w
         = World (Some (JsMap.set (toUpperCase s) b mf)) (eventFactories w)
                 (singleton w) (instances w) (uuid_calls w) (clock_reads w)
                 (trace w).
Proof.
  destruct a as [| | | |s| | | |]; try (by left).
  destruct (modelFactories w) as [mf|] eqn:Hmf; cycle 1.
  { left. unfold exec, registerModel.
    rewrite (bind_Ok _ _ w w (toUpperCase s)) by done.
    erewrite bind_Throw; [done|].
    unfold read_modelFactories. by rewrite Hmf. }
  destruct (JsMap.get (toUpperCase s) mf) as [g|] eqn:Hget.
  { left. unfold exec. by rewrite (registerModel_taken this s g b mf w Hmf Hget). }
  destruct (is_function b) eqn:Hb.
  - right. exists s, mf. repeat split; try done.
    unfold exec. by rewrite (registerModel_fresh this s b mf w Hmf Hget Hb).
  - left. unfold exec, registerModel.
    rewrite (bind_Ok _ _ w w (toUpperCase s)) by done.
    rewrite (bind_Ok _ _ w w mf) by (unfold read_modelFactories; by rewrite Hmf).
    by rewrite Hb, andb_false_r.
Qed.

Lemma registerEvent_exec (this : ModelFactoryInstance) (a b c : value) (w : world) :
  exec (registerEvent this a b c) w = w
  \/ exists (s E : string) (ef : gmap string JsMap.t) (m : JsMap.t),
      b = VStr s /\ checkEventType a = Ok E
      /\ eventFactories w = Some ef /\ ef !! E = Some m
      /\ is_function c = true
      /\ exec (registerEvent this a b c) w
         = World (modelFactories w)
                 (Some (<[E := JsMap.set (toUpperCase s) c m]> ef))
                 (singleton w) (instances w) (uuid_calls w) (clock_reads w)
                 (trace w).
Proof.
  destruct b as [| | | |s| | | |]; try (by left).
  destruct (checkEventType a) as [E|e] eqn:He; cycle 1.
  { left. unfold exec, registerEvent.
    rewrite (bind_Ok _ _ w w (toUpperCase s)) by done.
    erewrite bind_Throw; [done|]. unfold lift. by rewrite He. }
  destruct (is_function c) eqn:Hc; cycle 1.
  { left. unfold exec, registerEvent.
    rewrite (bind_Ok _ _ w w (toUpperCase s)) by done.
    rewrite (bind_Ok _ _ w w E) by (unfold lift; by rewrite He).
    by rewrite Hc. }
  destruct (eventFactories w) as [ef|] eqn:Hef; cycle 1.
  { left. unfold exec, registerEvent.
    rewrite (bind_Ok _ _ w w (toUpperCase s)) by done.
    rewrite (bind_Ok _ _ w w E) by (unfold lift; by rewrite He).
    rewrite Hc. erewrite bind_Throw; [done|].
    unfold read_eventFactories. by rewrite Hef. }
  destruct (ef !! E) as [m|] eqn:Hm; cycle 1.
  { left. unfold exec, registerEvent.
    rewrite (bind_Ok _ _ w w (toUpperCase s)) by done.
    rewrite (bind_Ok _ _ w w E) by (unfold lift; by rewrite He).
    rewrite Hc. erewrite bind_Throw; [done|].
    unfold read_eventFactories. by rewrite Hef, Hm. }
  right. exists s, E, ef, m. repeat split; try done.
  unfold exec. by rewrite (registerEvent_callable this a s E c ef m w He Hef Hm Hc).
Qed.

(** X4: Registering twice what was registered once changes nothing more:
    both registrations are idempotent, whatever their arguments. *)
Theorem registration_idempotent (this : ModelFactoryInstance)
  (a b c : value) (w : world) :
  exec (registerModel this a b) (exec (registerModel this a b) w)
  = exec (registerModel this a b) w
  /\ exec (registerEvent this a b c) (exec (registerEvent this a b c) w)
     = exec (registerEvent this a b c) w.
Proof.
  split.
  - destruct (registerModel_exec this a b w)
      as [Hsame | (s & mf & -> & Hmf & Hget & Hb & Hw)].
    + by rewrite !Hsame.
    + rewrite Hw. unfold exec.
      by erewrite registerModel_taken; [| reflexivity | apply JsMap_get_set_eq].
  - destruct (registerEvent_exec this a b c w)
      as [Hsame | (s & E & ef & m & -> & He & Hef & Hm & Hc & Hw)].
    + by rewrite !Hsame.
    + rewrite Hw. unfold exec.
      erewrite registerEvent_callable;
        [| exact He | reflexivity | apply lookup_insert_eq | exact Hc].
      simpl. by rewrite JsMap_set_set, insert_insert_eq.
Qed.

Lemma new_instance_ready (w : world) : ready (exec new_ModelFactoryInstance w).
Proof.
  split; [by eexists|]. eexists. split; [reflexivity|].
  intros E [-> | [-> | ->]]; by eexists.
Qed.

Lemma new_instance_only_functions (w : world) :
  only_functions (exec new_ModelFactoryInstance w).
Proof.
  split.
  - intros N f. discriminate.
  - intros E N f. unfold event_constructor. simpl.
    destruct (_ !! E) as [m|] eqn:Hm; [|discriminate].
    rewrite !lookup_insert, lookup_singleton in Hm.
    repeat case_decide; simplify_eq; done.
Qed.

Lemma registerEvent_ready (this : ModelFactoryInstance) (a b c : value)
  (w : world) :
  ready w -> ready (exec (registerEvent this a b c) w).
Proof.
  intros [[mf0 Hmf0] (ef0 & Hef0 & Hall)].
  destruct (registerEvent_exec this a b c w)
    as [-> | (s & E & ef & m & -> & He & Hef & Hm & Hc & ->)];
    [by split; eauto|].
  split; [by exists mf0|]. eexists. split; [reflexivity|].
  intros E' HE'. rewrite Hef in Hef0. injection Hef0 as <-.
  destruct (decide (E = E')) as [<- | Hne].
  - rewrite lookup_insert_eq. by eexists.
  - rewrite lookup_insert_ne by done. by apply Hall.
Qed.

Lemma registerEvent_only_functions (this : ModelFactoryInstance)
  (a b c : value) (w : world) :
  only_functions w -> only_functions (exec (registerEvent this a b c) w).
Proof.
  intros [Hmodels Hevents].
  destruct (registerEvent_exec this a b c w)
    as [-> | (s & E & ef & m & -> & He & Hef & Hm & Hc & ->)]; [by split|].
  split.
  - intros N f Hf. by apply (Hmodels N).
  - intros E' N f. unfold event_constructor. simpl.
    destruct (decide (E = E')) as [<- | Hne].
    + rewrite lookup_insert_eq.
      destruct (decide (toUpperCase s = N)) as [<- | Hne].
      * rewrite JsMap_get_set_eq. by intros [= <-].
      * rewrite JsMap_get_set_ne by done. intros Hf.
        apply (Hevents E N). unfold event_constructor. by rewrite Hef, Hm.
    + rewrite lookup_insert_ne by done. intros Hf.
      apply (Hevents E' N). unfold event_constructor. by rewrite Hef.
Qed.

(** X5: A new instance leaves the registries ready, and no registration ever
    takes that away: the maps stay defined, one per event type. *)
Theorem registries_stay_ready (this : ModelFactoryInstance)
  (a b c : value) (w : world) :
  ready (exec new_ModelFactoryInstance w)
  /\ (ready w ->
      ready (exec (registerModel this a b) w)
      /\ ready (exec (registerEvent this a b c) w)).
Proof.
  split; [apply new_instance_ready|].
  intros [[mf0 Hmf0] (ef0 & Hef0 & Hall)]. split.
  - destruct (registerModel_exec this a b w)
      as [-> | (s & mf & -> & Hmf & Hget & Hb & ->)]; [by split; eauto|].
    split; [by eexists|]. exists ef0. by split.
  - apply registerEvent_ready. split; [by exists mf0 | by exists ef0].
Qed.

(** X6: A new instance has nothing registered, and a registration only ever
    stores a function, so whatever a lookup finds can be called. *)
Theorem only_functions_registered (this : ModelFactoryInstance)
  (a b c : value) (w : world) :
  only_functions (exec new_ModelFactoryInstance w)
  /\ (only_functions w ->
      only_functions (exec (registerModel this a b) w)
      /\ only_functions (exec (registerEvent this a b c) w)).
Proof.
  split; [apply new_instance_only_functions|].
  { intros [Hmodels Hevents]. split.
    + destruct (registerModel_exec this a b w)
        as [-> | (s & mf & -> & Hmf & Hget & Hb & ->)]; [by split|].
      split.
      * intros N f. unfold model_constructor. simpl.
        destruct (decide (toUpperCase s = N)) as [<- | Hne].
        -- rewrite JsMap_get_set_eq. by intros [= <-].
        -- rewrite JsMap_get_set_ne by done. intros Hf.
           apply (Hmodels N). unfold model_constructor. by rewrite Hmf.
      * intros E N f Hf. by apply (Hevents E N).
    + by apply registerEvent_only_functions. }
Qed.

(** X7: Registering something that is not a function is accepted in silence
    and registers nothing: [registerEvent] does not even look at its
    registry, [registerModel] leaves its own as it was, and a name that was
    free stays unregistered. *)
Theorem non_function_not_registered
  (Model_create_impl : value -> value -> string -> M value)
  (this : ModelFactoryInstance) (et : value) (n : string) (f args : value)
  (w : world) :
  is_function f = false ->
  (forall E, checkEventType et = Ok E ->
             registerEvent this et (VStr n) f w = (Ok tt, w))
  /\ (forall mf, modelFactories w = Some mf ->
        registerModel this (VStr n) f w = (Ok tt, w)
        /\ (JsMap.get (toUpperCase n) mf = None ->
            createModel Model_create_impl this (VStr n) args
              (exec (registerModel this (VStr n) f) w)
            = (Throw UnregisteredModel, w))).
Proof.
  intros Hf. split.
  - intros E He. unfold registerEvent.
    rewrite (bind_Ok _ _ w w (toUpperCase n)) by done.
    rewrite (bind_Ok _ _ w w E) by (unfold lift; by rewrite He).
    by rewrite Hf.
  - intros mf Hmf.
    assert (Hreg : registerModel this (VStr n) f w = (Ok tt, w)).
    { unfold registerModel.
      rewrite (bind_Ok _ _ w w (toUpperCase n)) by done.
      rewrite (bind_Ok _ _ w w mf) by (unfold read_modelFactories; by rewrite Hmf).
      by rewrite Hf, andb_false_r. }
    split; [done|]. intros Hget. unfold exec. rewrite Hreg. simpl.
    by apply createModel_unregistered with (mf := mf).
Qed.

(** X8: [listModels] answers with the constructors in the order of their
    registration and leaves the state alone: registering a new name with a
    function puts that function at the end of the list. *)
Theorem listModels_in_registration_order (this : ModelFactoryInstance)
  (n : string) (f : value) (mf : JsMap.t) (w : world) :
  modelFactories w = Some mf ->
  JsMap.get (toUpperCase n) mf = None ->
  is_function f = true ->
  listModels this w = (Ok (JsMap.values mf), w)
  /\ result (listModels this) (exec (registerModel this (VStr n) f) w)
     = Ok (JsMap.values mf ++ [f]).
Proof.
  intros Hmf Hget Hf. split.
  - unfold listModels.
    by rewrite (bind_Ok _ _ w w mf) by (unfold read_modelFactories; by rewrite Hmf).
  - unfold exec. rewrite (registerModel_fresh this n f mf w Hmf Hget Hf). simpl.
    unfold result, listModels, bind, read_modelFactories, ret. simpl.
    rewrite (JsMap_set_fresh _ _ _ Hget). unfold JsMap.values.
    by rewrite map_app.
Qed.

(** X9: The two registries and their entries are independent: registering a
    model leaves the event registry alone and the other names as they
    were; registering an event leaves the model registry alone and every
    other (event type, name) pair as it was. *)
Theorem registrations_independent (this : ModelFactoryInstance)
  (n : string) (et f : value) (w : world) :
  let wm := exec (registerModel this (VStr n) f) w in
  let we := exec (registerEvent this et (VStr n) f) w in
  eventFactories wm = eventFactories w
  /\ modelFactories we = modelFactories w
  /\ (forall N', N' <> toUpperCase n ->
         model_constructor wm N' = model_constructor w N')
  /\ (forall E E' N',
         checkEventType et = Ok E ->
         E' <> E \/ N' <> toUpperCase n ->
         event_constructor we E' N' = event_constructor w E' N').
Proof.
  intros wm we. subst wm we.
  destruct (registerModel_exec this (VStr n) f w)
    as [-> | (s & mf & [= <-] & Hmf & Hget & Hb & ->)];
  destruct (registerEvent_exec this et (VStr n) f w)
    as [-> | (s' & E0 & ef & m & [= <-] & He & Hef & Hm & Hc & ->)];
    (split; [done|]); (split; [done|]); split; try done.
  - intros E E' N' HE Hne. rewrite He in HE. injection HE as ->.
    unfold event_constructor. simpl. rewrite Hef.
    destruct (decide (E = E')) as [<- | HneE].
    + rewrite lookup_insert_eq, Hm.
      destruct Hne as [? | Hn]; [done|]. by rewrite JsMap_get_set_ne.
    + by rewrite lookup_insert_ne.
  - intros N' Hne. unfold model_constructor. simpl. rewrite Hmf.
    by rewrite JsMap_get_set_ne.
  - intros N' Hne. unfold model_constructor. simpl. rewrite Hmf.
    by rewrite JsMap_get_set_ne.
  - intros E E' N' HE Hne. rewrite He in HE. injection HE as ->.
    unfold event_constructor. simpl. rewrite Hef.
    destruct (decide (E = E')) as [<- | HneE].
    + rewrite lookup_insert_eq, Hm.
      destruct Hne as [? | Hn]; [done|]. by rewrite JsMap_get_set_ne.
    + by rewrite lookup_insert_ne.
Qed.

(** ** Assembly of events, further *)

Lemma call_counters (f : value) (args : list value) (w w' : world)
  (r : outcome value) :
  call f args w = (r, w') ->
  uuid_calls w <= uuid_calls w' /\ clock_reads w' = clock_reads w.
Proof.
  destruct f; cbv [call bind emit lift ret throw]; intros H;
    injection H as <- <-; simpl; split; lia || reflexivity.
Qed.

Lemma call_Ok_function (f : value) (args : list value) (w w' : world)
  (v : value) :
  call f args w = (Ok v, w') -> is_function f = true.
Proof. destruct f; simpl; intros H; done. Qed.

Lemma event_constructor_Some (w : world) (E N : string) (g : value) :
  event_constructor w E N = Some g ->
  exists ef m, eventFactories w = Some ef /\ ef !! E = Some m
               /\ JsMap.get N m = Some g.
Proof.
  unfold event_constructor.
  destruct (eventFactories w) as [ef|]; [|discriminate].
  destruct (ef !! E) as [m|] eqn:Hm; [|discriminate].
  intros Hg. by exists ef, m.
Qed.

(** X10: When [createEvent] rejects in a state where the registries are ready
    and hold only functions, the reason is a name that is not a string, an
    event type the check does not accept, or a canonical pair without
    constructor, each leaving the state as it was, or else the reason with
    which the constructor registered for the canonical pair rejected, in
    the state its call left: the enrichment of what a constructor returned
    never fails. *)
Theorem createEvent_failure_kinds (this : ModelFactoryInstance)
  (et n args : value) (e : error) (w w' : world) :
  ready w ->
  only_functions w ->
  createEvent this et n args w = (Throw e, w') ->
  (e = InvalidArgument /\ is_string n = false /\ w' = w)
  \/ (e = InvalidEventType /\ is_string n = true
      /\ checkEventType et = Throw InvalidEventType /\ w' = w)
  \/ (exists E N,
        e = UnregisteredModelEvent
        /\ checkEventType et = Ok E /\ checkModelName n = Ok N
        /\ event_constructor w E N = None /\ w' = w)
  \/ (exists E N g,
        checkEventType et = Ok E /\ checkModelName n = Ok N
        /\ event_constructor w E N = Some g
        /\ is_function g = true
        /\ call g [args] w = (Throw e, w')).
Proof.
  intros [_ (ef & Hef & Hall)] [_ Hfun] H.
  destruct (checkModelName n) as [N|e0] eqn:Hn; cycle 1.
  { left. destruct n; try discriminate;
      rewrite createEvent_invalid in H by done; by injection H as <- <-. }
  destruct (checkModelName_Ok _ _ Hn) as (s & -> & ->).
  destruct (checkEventType et) as [E|e0] eqn:He; cycle 1.
  { right. left. unfold createEvent in H.
    rewrite (bind_Ok _ _ w w (toUpperCase s)) in H by done.
    rewrite (bind_Throw _ _ w w e0) in H by (unfold lift; by rewrite He).
    injection H as <- <-.
    assert (He0 : e0 = InvalidEventType).
    { destruct et; simpl in He; try by injection He as <-.
      case_bool_decide; [discriminate | by injection He as <-]. }
    by subst e0. }
  destruct (checkEventType_Ok _ _ He) as [_ HE].
  destruct (Hall E HE) as [m Hm].
  assert (Hlook : event_constructor w E (toUpperCase s)
                  = JsMap.get (toUpperCase s) m).
  { unfold event_constructor. by rewrite Hef, Hm. }
  destruct (JsMap.get (toUpperCase s) m) as [g|] eqn:Hg; cycle 1.
  { right. right. left. exists E, (toUpperCase s).
    rewrite (createEvent_unregistered this et s E args ef m w He Hef Hm Hg) in H.
    by injection H as <- <-. }
  right. right. right. exists E, (toUpperCase s), g.
  split; [done|]. split; [done|]. split; [done|]. split.
  { by apply (Hfun E (toUpperCase s)). }
  destruct (call g [args] w) as [[out|e1] w1] eqn:Hcall.
  - rewrite (createEvent_registered this et (VStr s) args g out E
               (toUpperCase s) ef m w w1 Hn He Hef Hm Hg Hcall) in H.
    discriminate.
  - rewrite (createEvent_invokes this et s E args g ef m w He Hef Hm Hg) in H.
    rewrite (bind_Throw _ _ _ _ _ Hcall) in H. by injection H as <- <-.
Qed.

(** X11: A rejection of the registered constructor is the rejection of
    [createEvent], with the same reason; no identifier is drawn and the
    clock is not read. *)
Theorem constructor_rejection_propagates (this : ModelFactoryInstance)
  (et n args g : value) (E N : string) (e : error) (w w1 : world) :
  checkEventType et = Ok E ->
  checkModelName n = Ok N ->
  event_constructor w E N = Some g ->
  call g [args] w = (Throw e, w1) ->
  createEvent this et n args w = (Throw e, w1)
  /\ clock_reads w1 = clock_reads w
  /\ forall k, g = VHostFn k -> w1 = logged [Called g [args]] w.
Proof.
  intros He Hn Hg Hcall.
  destruct (checkModelName_Ok _ _ Hn) as (s & -> & ->).
  apply event_constructor_Some in Hg as (ef & m & Hef & Hm & Hg).
  split; [|split].
  - rewrite (createEvent_invokes this et s E args g ef m w He Hef Hm Hg).
    by rewrite (bind_Throw _ _ _ _ _ Hcall).
  - by destruct (call_counters _ _ _ _ _ Hcall).
  - intros k ->. cbv [call bind emit lift] in Hcall. by injection Hcall as _ <-.
Qed.

(** X12: A successful [createEvent] has called the constructor registered for
    the canonical pair once, with the arguments it was given, then the
    identifier generator once, and has read the clock once. *)
Theorem event_constructor_called_once (this : ModelFactoryInstance)
  (et n args ev : value) (w w' : world) :
  createEvent this et n args w = (Ok ev, w') ->
  exists (E N : string) (g : value),
    checkEventType et = Ok E
    /\ checkModelName n = Ok N
    /\ event_constructor w E N = Some g
    /\ trace w' = trace w ++ [Called g [args]; Called VUuid []]
    /\ clock_reads w' = S (clock_reads w).
Proof.
  intros H.
  apply createEvent_Ok_inv in H
    as (E & N & ef & m & g & out & w1 & Hn & He & Hef & Hm & Hg & Hcall & _ & ->).
  exists E, N, g. repeat split; try done.
  - unfold event_constructor. by rewrite Hef, Hm.
  - destruct (call_outcome g [args] w (call_Ok_function _ _ _ _ _ Hcall))
      as (w2 & Hrun & Htrace).
    rewrite Hcall in Hrun. injection Hrun as _ ->.
    simpl. rewrite Htrace. by rewrite <- app_assoc.
  - simpl. by destruct (call_counters _ _ _ _ _ Hcall) as [_ ->].
Qed.


(** X14: With a generator that never repeats itself, two events created one
    after the other never have the same [id]. *)
Theorem successive_events_have_distinct_ids (this : ModelFactoryInstance)
  (et1 n1 a1 et2 n2 a2 ev1 ev2 : value) (w w1 w1' w2 : world) :
  (forall i j : nat, uuid i = uuid j -> i = j) ->
  createEvent this et1 n1 a1 w = (Ok ev1, w1) ->
  uuid_calls w1 <= uuid_calls w1' ->
  createEvent this et2 n2 a2 w1' = (Ok ev2, w2) ->
  props_of ev1 !! "id" <> props_of ev2 !! "id"
  /\ is_Some (props_of ev1 !! "id").
Proof.
  intros Hinj H1 Hle H2.
  apply createEvent_Ok_inv in H1
    as (E1 & N1 & ? & ? & g1 & out1 & c1 & _ & He1 & _ & _ & _ & Hc1 & -> & ->).
  apply createEvent_Ok_inv in H2
    as (E2 & N2 & ? & ? & g2 & out2 & c2 & _ & He2 & _ & _ & _ & Hc2 & -> & ->).
  destruct (checkEventType_Ok _ _ He1) as [_ HE1].
  destruct (checkEventType_Ok _ _ He2) as [_ HE2].
  destruct (enriched_event_lookup E1 N1 (uuid (uuid_calls c1))
              (utc_now (clock_reads c1))
              (assign (own_props out1) (event_options E1 N1)) HE1) as (Hid1 & _).
  destruct (enriched_event_lookup E2 N2 (uuid (uuid_calls c2))
              (utc_now (clock_reads c2))
              (assign (own_props out2) (event_options E2 N2)) HE2) as (Hid2 & _).
  simpl props_of. rewrite Hid1, Hid2. split; [|by eexists].
  intros [= Heq]. apply Hinj in Heq.
  destruct (call_counters _ _ _ _ _ Hc2) as [Hmono _].
  simpl in Hle. lia.
Qed.

Lemma bind_assoc {A B C} (c : M A) (f : A -> M B) (g : B -> M C) (w : world) :
  bind (bind c f) g w = bind c (fun a => bind (f a) g) w.
Proof. unfold bind. by destruct (c w) as [[a|e] w1]. Qed.

(** X15: The three decorators of an event write different keys and draw on
    different collaborators, so the order in which they are chained does not
    show: last to first gives the bag and the state that first to last
    gives. *)
Theorem event_decorators_commute (o : gmap string value) (E s : string)
  (w : world) :
  o !! "generateId" = Some VUuid ->
  o !! "eventType" = Some (VStr E) ->
  o !! "modelName" = Some (VStr (toUpperCase s)) ->
  E = "CREATE" \/ E = "UPDATE" \/ E = "DELETE" ->
  (o1 <- addTimestamp o ;; o2 <- addEventName o1 ;; addId o2) w
  = (o1 <- addId o ;; o2 <- addEventName o1 ;; addTimestamp o2) w.
Proof.
  intros Hgen Het Hname HE.
  pose proof (enrichEvent_either_way o E s w Hgen Het Hname HE) as H.
  unfold composeRight, enrichEvent, compose in H. simpl in H.
  rewrite !bind_assoc in H. exact H.
Qed.

(** ** The add-model use case, further *)

Section AnyModelModuleMore.
Variable Model_create_impl : value -> value -> string -> M value.

Lemma getInstance_run (w : world) :
  exists factory,
    ModelFactory_getInstance w
    = (Ok factory, exec ModelFactory_getInstance w)
    /\ trace (exec ModelFactory_getInstance w) = trace w.
Proof.
  unfold exec, ModelFactory_getInstance. destruct (singleton w); simpl; eauto.
Qed.

(** X16: When [addModel] returns the model, the observer was notified last, and
    under the very name [createEventName] gives for CREATE and the
    configured model-type name, which is also the event's [eventName];
    just before, the model was saved under its own [id]. *)
Theorem addModel_notifies_under_protocol_name (modelName input model : value)
  (w w' : world) :
  addModel Model_create_impl modelName input w = (Ok model, w') ->
  exists (name : string) (event : value) (before : list effect),
    createEventName (VStr "CREATE") modelName = Ok name
    /\ props_of event !! "eventName" = Some (VStr name)
    /\ trace w'
       = before ++ [ Saved (get (own_props model) "id") model;
                     Called (VThunk (VStr name)) [];
                     Notified (VStr name) event ].
Proof.
  unfold addModel. intros H.
  apply bind_Ok_inv in H as (factory & wa & _ & H).
  apply bind_Ok_inv in H as (model0 & w1 & _ & H).
  apply bind_Ok_inv in H as (event & w2 & Hevent & H).
  apply bind_Ok_inv in H as (id & w3 & Hid & H).
  apply bind_Ok_inv in H as (sv & w4 & Hsave & H).
  apply bind_Ok_inv in H as (name & w5 & Hname & H).
  apply bind_Ok_inv in H as (nt & w6 & Hnotify & H).
  injection H as -> <-.
  apply createEvent_Ok_inv in Hevent
    as (E & N & ef & m & g & out & c & Hn & He & _ & _ & _ & _ & -> & _).
  injection He as <-.
  destruct (enriched_event_lookup "CREATE" N (uuid (uuid_calls c))
              (utc_now (clock_reads c))
              (assign (own_props out) (event_options "CREATE" N))
              (or_introl eq_refl))
    as (_ & _ & Hen & Hgen & _).
  set (eprops := enriched_event _ _ _ _ _) in *.
  assert (Hgetter : get eprops "getEventName" = VThunk (VStr ("CREATE" +:+ N)))
    by (unfold get; by rewrite Hgen).
  rewrite (invoke_thunk eprops true "getEventName" _ w4 Hgetter) in Hname.
  injection Hname as <- <-.
  rewrite save_run in Hsave. injection Hsave as _ <-.
  rewrite notify_run in Hnotify. injection Hnotify as _ <-.
  assert (Hread : id = get (own_props model) "id" /\ w3 = w2).
  { destruct model; simpl in Hid; try discriminate;
      by injection Hid as <- <-. }
  destruct Hread as [-> ->].
  exists ("CREATE" +:+ N), (VObj true eprops), (trace w2).
  split; [|split].
  - unfold createEventName. simpl checkEventType.
    rewrite Hn. reflexivity.
  - exact Hen.
  - simpl. by rewrite <- !app_assoc.
Qed.

(** X17: [addModel] for a name that has no model constructor rejects with
    UnregisteredModel before anything is called, saved or notified: the
    state is the one in which the factory instance was obtained, and the
    trace is as it was. *)
Theorem addModel_unknown_model_untouched (s : string) (input : value)
  (mf : JsMap.t) (w : world) :
  let wa := exec ModelFactory_getInstance w in
  modelFactories wa = Some mf ->
  JsMap.get (toUpperCase s) mf = None ->
  addModel Model_create_impl (VStr s) input w = (Throw UnregisteredModel, wa)
  /\ trace wa = trace w.
Proof.
  intros wa Hmf Hget. subst wa.
  destruct (getInstance_run w) as (factory & Hinst & Htrace).
  split; [|done]. unfold addModel.
  rewrite (bind_Ok _ _ _ _ _ Hinst).
  by rewrite (bind_Throw _ _ _ _ _
                (createModel_unregistered Model_create_impl factory s
                   input mf _ Hmf Hget)).
Qed.

(** X18: A model registered without a constructor for its CREATE event cannot
    be added: [addModel] builds the model, then rejects with
    UnregisteredModelEvent, and the state is the one the construction of
    the model left, nothing saved and nobody notified. *)
Theorem addModel_needs_create_event (s : string) (input model : value)
  (factory : ModelFactoryInstance) (ef : gmap string JsMap.t) (m : JsMap.t)
  (w wa w1 : world) :
  ModelFactory_getInstance w = (Ok factory, wa) ->
  createModel Model_create_impl factory (VStr s) input wa = (Ok model, w1) ->
  eventFactories w1 = Some ef ->
  ef !! "CREATE" = Some m ->
  JsMap.get (toUpperCase s) m = None ->
  addModel Model_create_impl (VStr s) input w
  = (Throw UnregisteredModelEvent, w1).
Proof.
  intros Hinst Hmodel Hef Hm Hget. unfold addModel.
  rewrite (bind_Ok _ _ _ _ _ Hinst), (bind_Ok _ _ _ _ _ Hmodel).
  by rewrite (bind_Throw _ _ _ _ _
                (createEvent_unregistered factory (VStr "CREATE") s "CREATE"
                   model ef m w1 eq_refl Hef Hm Hget)).
Qed.

End AnyModelModuleMore.

(** ** Registration and lookup *)

(** X19: In a ready state a registration with a function never fails, and the
    lookup that follows finds a constructor: for a model the one that was
    there first, for an event the one just given. *)
Theorem registration_round_trip (this : ModelFactoryInstance) (et : value)
  (n E : string) (f : value) (w : world) :
  ready w ->
  is_function f = true ->
  checkEventType et = Ok E ->
  result (registerModel this (VStr n) f) w = Ok tt
  /\ model_constructor (exec (registerModel this (VStr n) f) w) (toUpperCase n)
     = Some (default f (model_constructor w (toUpperCase n)))
  /\ result (registerEvent this et (VStr n) f) w = Ok tt
  /\ event_constructor (exec (registerEvent this et (VStr n) f) w) E
       (toUpperCase n)
     = Some f.
Proof.
  intros [[mf Hmf] (ef & Hef & Hall)] Hf He.
  destruct (checkEventType_Ok _ _ He) as [_ HE].
  destruct (Hall E HE) as [m Hm].
  unfold result, exec.
  rewrite (registerEvent_callable this et n E f ef m w He Hef Hm Hf).
  unfold model_constructor at 2. rewrite Hmf.
  destruct (JsMap.get (toUpperCase n) mf) as [c|] eqn:Hget.
  - rewrite (registerModel_taken this n c f mf w Hmf Hget). simpl.
    repeat split; try done.
    + unfold model_constructor. by rewrite Hmf.
    + unfold event_constructor. simpl.
      by rewrite lookup_insert_eq, JsMap_get_set_eq.
  - rewrite (registerModel_fresh this n f mf w Hmf Hget Hf). simpl.
    repeat split; try done.
    + unfold model_constructor. simpl. by rewrite JsMap_get_set_eq.
    + unfold event_constructor. simpl.
      by rewrite lookup_insert_eq, JsMap_get_set_eq.
Qed.

(** X20: The canonical forms are fixed points of the checks: what
    [checkEventType] and [checkModelName] return passes them unchanged, and
    names the same event. *)
Theorem canonical_forms_stable (t n : value) (E N : string) :
  checkEventType t = Ok E ->
  checkModelName n = Ok N ->
  checkEventType (VStr E) = Ok E
  /\ checkModelName (VStr N) = Ok N
  /\ createEventName (VStr E) (VStr N) = createEventName t n.
Proof.
  intros Ht Hn.
  destruct (checkEventType_Ok _ _ Ht) as [_ HE].
  destruct (checkModelName_Ok _ _ Hn) as (s & -> & ->).
  pose proof (checkEventType_canonical E HE) as Hc.
  split; [done|]. split; [simpl; by rewrite toUpperCase_idem|].
  rewrite (createEventName_canonical E s HE).
  unfold createEventName. by rewrite Ht.
Qed.

(** ** The model pipeline *)


(** ** What assembly never does *)

Lemma quiet_createModel_with
  (Model_create_impl : value -> value -> string -> M value)
  (this : ModelFactoryInstance) (n args : value) :
  (forall f a N, quiet (Model_create_impl f a N)) ->
  quiet (createModel Model_create_impl this n args).
Proof.
  intros Hq. unfold createModel.
  apply quiet_bind; [apply quiet_lift | intros N].
  apply quiet_bind; [apply quiet_read_modelFactories | intros mf].
  destruct (JsMap.has N mf); [|apply quiet_throw].
  apply quiet_bind; [apply Hq | intros; apply quiet_ret].
Qed.

(** X22: [createEvent] never registers anything, never saves and never
    notifies, however it ends: the registries and the shared instance are
    as before and the trace only grew by function applications.
    [listModels] changes nothing at all, and [createModel] is as quiet as
    the [Model.create] it is given. *)
Theorem assembly_leaves_registries
  (Model_create_impl : value -> value -> string -> M value)
  (this : ModelFactoryInstance) (et n args : value) (w : world) :
  calls_only w (exec (createEvent this et n args) w)
  /\ exec (listModels this) w = w
  /\ ((forall f a N, quiet (Model_create_impl f a N)) ->
      calls_only w (exec (createModel Model_create_impl this n args) w)).
Proof.
  split; [|split].
  - unfold exec.
    destruct (createEvent this et n args w) as [r w'] eqn:H.
    by eapply quiet_createEvent.
  - unfold exec, listModels, bind, read_modelFactories.
    by destruct (modelFactories w).
  - intros Hq. unfold exec.
    destruct (createModel Model_create_impl this n args w) as [r w'] eqn:H.
    by eapply quiet_createModel_with.
Qed.

End MoreFacts.

(** * The properties on the demo application *)

#[local] Existing Instance demo_host.

(** The end-to-end scenario: the model is returned, and the trace shows the
    two constructors, the save and the notification in that order. *)
Example addModel_demo_completes :
  let input := VObj false {[ "total" := VNum 100 ]} in
  let run := addModel Model_create (VStr "Order") input wired in
  let model := resolved (addModel Model_create (VStr "Order") input) wired in
  let event := resolved (createEvent (Instance 0) (VStr "CREATE") (VStr "Order") model)
                 (exec (createModel Model_create (Instance 0) (VStr "Order") input) wired) in
  run.1 = Ok model
  /\ props_of model !! "id" = Some (VStr "id-0")
  /\ props_of model !! "total" = Some (VNum 100)
  /\ trace run.2
     = [ Called (VHostFn 0) [input]; Called VUuid [];
         Called (VHostFn 1) [model]; Called VUuid [];
         Saved (VStr "id-0") model;
         Called (VThunk (VStr "CREATEORDER")) [];
         Notified (VStr "CREATEORDER") event ].
Proof. vm_compute. repeat split. Qed.

(** Witness of C1 on the CREATE event of "Order", requested in lower case. *)
Lemma event_name_protocol_witness :
  exists (ev : value) (w' : world),
    createEvent (Instance 0) (VStr "create") (VStr "Order") (VNum 1) wired
    = (Ok ev, w')
    /\ forall w2 : world,
        result (invoke ev "getEventName" []) w2 = Ok (VStr "CREATEORDER").
Proof.
  eexists _, _. split.
  - vm_compute. reflexivity.
  - eapply (event_name_protocol (Instance 0) "create" "Order" (VNum 1) _ wired).
    vm_compute. reflexivity.
Defined.

(** Witness of C2: constructors 0 and 1 registered in turn for "Order". *)
Lemma registration_policies_witness :
  let this := Instance 0 in
  let w1 := exec (registerModel this (VStr "Order") (VHostFn 0)) constructed in
  let e1 := exec (registerEvent this (VStr "create") (VStr "Order") (VHostFn 0))
              constructed in
  let e2 := exec (registerEvent this (VStr "create") (VStr "Order") (VHostFn 1)) e1 in
  is_function (VHostFn 0) = true
  /\ registerModel this (VStr "Order") (VHostFn 1) w1 = (Ok tt, w1)
  /\ createModel Model_create this (VStr "Order") (VNum 1) w1
     = (model <- Model_create (VHostFn 0) (VNum 1) "ORDER" ;;
        ret (freeze model)) w1
  /\ createEvent this (VStr "create") (VStr "Order") (VNum 1) e2
     = (event <- call (VHostFn 1) [VNum 1] ;;
        enriched <- enrichEvent
                      (assign (own_props event) (event_options "CREATE" "ORDER")) ;;
        ret (freeze (VObj false enriched))) e2.
Proof.
  intros this w1 e1 e2.
  destruct (registration_policies Model_create this "Order" (VHostFn 0)
              (VHostFn 1) (VNum 1) constructed eq_refl) as [Hm He].
  split; [reflexivity|].
  destruct (Hm JsMap.empty eq_refl eq_refl) as [H1 H2].
  split; [exact H1|]. split; [exact H2|].
  refine (He (VStr "create") "CREATE" _ JsMap.empty eq_refl eq_refl _ eq_refl).
  vm_compute. reflexivity.
Defined.



(** Witness of C5 on the model and on the event of the demo application. *)
Lemma assembled_instances_immutable_witness :
  immutable (resolved (createModel Model_create (Instance 0) (VStr "Order") (VNum 1)) wired)
  /\ immutable (resolved (createEvent (Instance 0) (VStr "create") (VStr "Order") (VNum 1)) wired).
Proof.
  split.
  - eapply (assembled_instances_immutable (Instance 0) VUndefined (VStr "Order")
              (VNum 1) _ wired).
    left. vm_compute. reflexivity.
  - eapply (assembled_instances_immutable (Instance 0) (VStr "create")
              (VStr "Order") (VNum 1) _ wired).
    right. vm_compute. reflexivity.
Defined.

(** Witness of C6: "Invoice" was never registered, and "Order" has no
    DELETE event constructor. *)
Lemma unregistered_rejected_without_effects_witness :
  createModel Model_create (Instance 0) (VStr "Invoice") (VNum 1) wired
  = (Throw UnregisteredModel, wired)
  /\ createEvent (Instance 0) (VStr "DELETE") (VStr "Order") (VNum 1) wired
     = (Throw UnregisteredModelEvent, wired).
Proof.
  split.
  - eapply (proj1 (unregistered_rejected_without_effects Model_create
                     (Instance 0) "Invoice" (VNum 1) wired)).
    + vm_compute. reflexivity.
    + reflexivity.
  - eapply (proj2 (unregistered_rejected_without_effects Model_create
                     (Instance 0) "Order" (VNum 1) wired)
              (VStr "DELETE") "DELETE" _ JsMap.empty).
    + reflexivity.
    + vm_compute. reflexivity.
    + vm_compute. reflexivity.
    + reflexivity.
Defined.

(** C7 as it was stated fails on the empty string: it passes the name
    check, [registerModel] stores the constructor under the empty key, and
    [createModel] then finds it. *)
Lemma empty_name_accepted_counterexample :
  let this := Instance 0 in
  let w1 := exec (registerModel this (VStr "") (VHostFn 0)) constructed in
  checkModelName (VStr "") = Ok ""
  /\ result (registerModel this (VStr "") (VHostFn 0)) constructed = Ok tt
  /\ modelFactories w1 = Some [("", VHostFn 0)]
  /\ result (registerModel this (VStr "") (VHostFn 0)) constructed
     <> Throw InvalidArgument
  /\ exists (model : value) (w' : world),
      createModel Model_create this (VStr "") (VNum 1) w1 = (Ok model, w').
Proof.
  intros this w1. repeat split.
  - discriminate.
  - eexists _, _. vm_compute. reflexivity.
Qed.

(** Witness of C7 as amended: the number 5 as a name, before any instance
    was constructed. *)
Lemma non_string_name_rejected_witness :
  let this := Instance 0 in
  is_string (VNum 5) = false
  /\ registerModel this (VNum 5) (VHostFn 0) fresh = (Throw InvalidArgument, fresh)
  /\ registerEvent this (VStr "create") (VNum 5) (VHostFn 1) fresh
     = (Throw InvalidArgument, fresh)
  /\ createModel Model_create this (VNum 5) VUndefined fresh
     = (Throw InvalidArgument, fresh)
  /\ createEvent this (VStr "create") (VNum 5) VUndefined fresh
     = (Throw InvalidArgument, fresh).
Proof.
  intros this.
  destruct (non_string_name_rejected Model_create this (VNum 5) fresh eq_refl)
    as (H1 & H2 & H3 & H4 & _).
  split; [reflexivity|]. split; [apply H1|]. split; [apply H2|].
  split; [apply H3 | apply H4].
Defined.

(** Witness of C8: "order" and "ORDER" for the model registered as "Order". *)
Lemma model_names_case_insensitive_witness :
  let this := Instance 0 in
  same_name "order" "ORDER"
  /\ createModel Model_create this (VStr "order") (VNum 1) wired
     = createModel Model_create this (VStr "ORDER") (VNum 1) wired
  /\ exists (model : value) (w1 : world),
      createModel Model_create this (VStr "order") (VNum 1) wired
      = (Ok (freeze model), w1)
      /\ createModel Model_create this (VStr "ORDER") (VNum 1) wired
         = (Ok (freeze model), w1).
Proof.
  intros this.
  destruct (model_names_case_insensitive Model_create this "order" "ORDER"
              (VNum 1) wired eq_refl) as [Hsame Hreg].
  split; [reflexivity|]. split; [exact Hsame|].
  destruct (Hreg [("ORDER", VHostFn 0)] (VHostFn 0) eq_refl eq_refl)
    as [_ Hboth].
  eexists _, _. apply Hboth. vm_compute. reflexivity.
Defined.

(** Witness of C9: a second construction after the demo application was
    wired. *)
Lemma constructor_resets_shared_registry_witness :
  let old := Instance 0 in
  let w' := exec new_ModelFactoryInstance wired in
  result (listModels old) wired = Ok [VHostFn 0]
  /\ listModels old w' = (Ok [], w')
  /\ createModel Model_create old (VStr "Order") (VNum 1) w'
     = (Throw UnregisteredModel, w')
  /\ createEvent old (VStr "create") (VStr "Order") (VNum 1) w'
     = (Throw UnregisteredModelEvent, w').
Proof.
  intros old w'.
  destruct (constructor_resets_shared_registry Model_create old wired)
    as (Hlist & Hmodel & Hevent & _).
  split; [reflexivity|]. split; [exact Hlist|]. split; [apply Hmodel|].
  apply (Hevent (VStr "create") "CREATE"). reflexivity.
Defined.

(** Witness of C10: constructor 3 returns a frozen bag that already has
    every field the pipeline derives, and one more. *)
Lemma pipeline_values_take_precedence_witness :
  let this := Instance 0 in
  let w1 := exec (registerEvent this (VStr "update") (VStr "Order") (VHostFn 3))
              wired in
  exists (props : gmap string value) (w' : world),
    createEvent this (VStr "UPDATE") (VStr "order") (VNum 1) w1
    = (Ok (VObj true props), w')
    /\ props !! "id" = Some (VStr "id-0")
    /\ props !! "getId" = Some (VThunk (VStr "id-0"))
    /\ props !! "modelName" = Some (VStr "ORDER")
    /\ props !! "eventType" = Some (VStr "UPDATE")
    /\ props !! "eventName" = Some (VStr "UPDATEORDER")
    /\ props !! "getEventName" = Some (VThunk (VStr "UPDATEORDER"))
    /\ props !! "generateId" = Some VUuid
    /\ props !! "kept" = Some (VBool true).
Proof.
  intros this w1.
  assert (Hrun : exists ev w',
             createEvent this (VStr "UPDATE") (VStr "order") (VNum 1) w1
             = (Ok ev, w')
             /\ uuid_calls w' = 1
             /\ props_of ev !! "kept" = Some (VBool true)).
  { eexists _, _. split; [vm_compute; reflexivity|].
    split; vm_compute; reflexivity. }
  destruct Hrun as (ev & w' & Hrun & Hcalls & Hkept).
  destruct (pipeline_values_take_precedence this (VStr "UPDATE") (VStr "order")
              (VNum 1) ev w1 w' Hrun)
    as (E & N & k & props & HE & HN & Hk & -> & Hid & Hgid & Hmn & Hty & Hen
        & Hgen & Hg).
  injection HE as <-. injection HN as <-.
  rewrite Hcalls in Hk. injection Hk as <-.
  exists props, w'. repeat split; assumption.
Defined.

(** * The further properties on the demo application *)

Lemma event_names_distinct_witness :
  createEventName (VStr "create") (VStr "Order") = Ok "CREATEORDER"
  /\ createEventName (VStr "CREATE") (VStr "order") = Ok "CREATEORDER"
  /\ checkEventType (VStr "create") = checkEventType (VStr "CREATE")
  /\ checkModelName (VStr "Order") = checkModelName (VStr "order").
Proof.
  split; [reflexivity|]. split; [reflexivity|].
  apply (event_names_distinct (VStr "create") (VStr "Order") (VStr "CREATE")
           (VStr "order") "CREATEORDER"); reflexivity.
Defined.

Lemma keys_case_insensitive_witness :
  let this := Instance 0 in
  same_name "update" "UPDATE" /\ same_name "order" "Order"
  /\ registerModel this (VStr "order") (VHostFn 1) wired
     = registerModel this (VStr "Order") (VHostFn 1) wired
  /\ registerEvent this (VStr "update") (VStr "order") (VHostFn 1) wired
     = registerEvent this (VStr "UPDATE") (VStr "Order") (VHostFn 1) wired
  /\ createEvent this (VStr "update") (VStr "order") (VNum 1) wired
     = createEvent this (VStr "UPDATE") (VStr "Order") (VNum 1) wired.
Proof.
  intros this. split; [reflexivity|]. split; [reflexivity|].
  destruct (keys_case_insensitive this "update" "UPDATE" "order" "Order"
              (VHostFn 1) (VNum 1) wired eq_refl eq_refl)
    as (H1 & H2 & H3 & _).
  split; [exact H1|]. split; [exact H2 | exact H3].
Defined.

Lemma unknown_event_type_rejected_witness :
  let this := Instance 0 in
  unknown_event_type (VStr "archive")
  /\ registerEvent this (VStr "archive") (VStr "Order") (VHostFn 1) wired
     = (Throw InvalidEventType, wired)
  /\ createEvent this (VStr "archive") (VStr "Order") (VNum 1) wired
     = (Throw InvalidEventType, wired)
  /\ createEventName (VStr "archive") (VNum 5) = Throw InvalidEventType
  /\ createEvent this (VStr "archive") (VNum 5) (VNum 1) wired
     = (Throw InvalidArgument, wired).
Proof.
  intros this.
  assert (Hu : unknown_event_type (VStr "archive")).
  { intros s [= <-]. repeat split; vm_compute; discriminate. }
  destruct (unknown_event_type_rejected this (VStr "archive") "Order"
              (VHostFn 1) (VNum 1) (VNum 5) wired Hu)
    as (H1 & H2 & H3 & H4).
  split; [exact Hu|]. split; [exact H1|]. split; [exact H2|].
  split; [exact H3|]. exact (proj2 (H4 eq_refl)).
Defined.

Lemma non_function_not_registered_witness :
  let this := Instance 0 in
  is_function (VStr "no function") = false
  /\ registerEvent this (VStr "delete") (VStr "Invoice") (VStr "no function") wired
     = (Ok tt, wired)
  /\ registerModel this (VStr "Invoice") (VStr "no function") wired
     = (Ok tt, wired)
  /\ createModel Model_create this (VStr "Invoice") (VNum 1)
       (exec (registerModel this (VStr "Invoice") (VStr "no function")) wired)
     = (Throw UnregisteredModel, wired).
Proof.
  intros this.
  destruct (non_function_not_registered Model_create this (VStr "delete")
              "Invoice" (VStr "no function") (VNum 1) wired eq_refl)
    as [He Hm].
  destruct (Hm [("ORDER", VHostFn 0)] eq_refl) as [H1 H2].
  split; [reflexivity|]. split; [exact (He "DELETE" eq_refl)|].
  split; [exact H1 | exact (H2 eq_refl)].
Defined.

Lemma listModels_in_registration_order_witness :
  let this := Instance 0 in
  listModels this wired = (Ok [VHostFn 0], wired)
  /\ result (listModels this)
       (exec (registerModel this (VStr "Invoice") (VHostFn 2)) wired)
     = Ok [VHostFn 0; VHostFn 2].
Proof.
  intros this.
  exact (listModels_in_registration_order this "Invoice" (VHostFn 2)
           [("ORDER", VHostFn 0)] wired eq_refl eq_refl eq_refl).
Defined.

Lemma createEvent_failure_kinds_witness :
  let this := Instance 0 in
  let w := exec (registerEvent this (VStr "delete") (VStr "Order") (VHostFn 4))
             constructed in
  let e := Rejected (VStr "constructor failed") in
  let w' := logged [Called (VHostFn 4) [VNum 1]] w in
  ready w
  /\ only_functions w
  /\ createEvent this (VStr "DELETE") (VStr "order") (VNum 1) w = (Throw e, w')
  /\ exists (E N : string) (g : value),
      checkEventType (VStr "DELETE") = Ok E
      /\ checkModelName (VStr "order") = Ok N
      /\ event_constructor w E N = Some g
      /\ is_function g = true
      /\ call g [VNum 1] w = (Throw e, w').
Proof.
  intros this w e w'.
  assert (Hready : ready w)
    by apply registerEvent_ready, (new_instance_ready fresh).
  assert (Hfun : only_functions w)
    by apply registerEvent_only_functions, (new_instance_only_functions fresh).
  assert (Hrun : createEvent this (VStr "DELETE") (VStr "order") (VNum 1) w
                 = (Throw e, w'))
    by (vm_compute; reflexivity).
  split; [exact Hready|]. split; [exact Hfun|]. split; [exact Hrun|].
  destruct (createEvent_failure_kinds this (VStr "DELETE") (VStr "order")
              (VNum 1) e w w' Hready Hfun Hrun)
    as [(He & _) | [(He & _) | [(E & N & He & _) | H4]]];
    [discriminate He | discriminate He | discriminate He | exact H4].
Defined.

Lemma constructor_rejection_propagates_witness :
  let this := Instance 0 in
  let w := exec (registerEvent this (VStr "delete") (VStr "Order") (VHostFn 4))
             wired in
  event_constructor w "DELETE" "ORDER" = Some (VHostFn 4)
  /\ createEvent this (VStr "DELETE") (VStr "order") (VNum 1) w
     = (Throw (Rejected (VStr "constructor failed")),
        logged [Called (VHostFn 4) [VNum 1]] w).
Proof.
  intros this w.
  assert (Hg : event_constructor w "DELETE" "ORDER" = Some (VHostFn 4))
    by (vm_compute; reflexivity).
  split; [exact Hg|].
  exact (proj1 (constructor_rejection_propagates this (VStr "DELETE")
                  (VStr "order") (VNum 1) (VHostFn 4) "DELETE" "ORDER"
                  (Rejected (VStr "constructor failed")) w
                  (logged [Called (VHostFn 4) [VNum 1]] w)
                  eq_refl eq_refl Hg eq_refl)).
Defined.

Lemma event_constructor_called_once_witness :
  let this := Instance 0 in
  exists (ev : value) (w' : world),
    createEvent this (VStr "create") (VStr "Order") (VNum 1) wired = (Ok ev, w')
    /\ exists (E N : string) (g : value),
        checkEventType (VStr "create") = Ok E
        /\ checkModelName (VStr "Order") = Ok N
        /\ event_constructor wired E N = Some g
        /\ trace w' = trace wired ++ [Called g [VNum 1]; Called VUuid []]
        /\ clock_reads w' = S (clock_reads wired).
Proof.
  intros this. eexists _, _. split.
  - vm_compute. reflexivity.
  - eapply (event_constructor_called_once this (VStr "create") (VStr "Order")
              (VNum 1)).
    vm_compute. reflexivity.
Defined.


Lemma demo_uuid_inj (i j : nat) : uuid i = uuid j -> i = j.
Proof.
  unfold uuid, demo_host. intros H.
  change (String "i" (String "d" (String "-" (pretty i)))
          = String "i" (String "d" (String "-" (pretty j)))) in H.
  injection H as H. by apply (inj pretty) in H.
Qed.

Lemma successive_events_have_distinct_ids_witness :
  let this := Instance 0 in
  exists (ev1 ev2 : value) (w1 w2 : world),
    createEvent this (VStr "create") (VStr "Order") (VNum 1) wired = (Ok ev1, w1)
    /\ createEvent this (VStr "create") (VStr "Order") (VNum 2) w1 = (Ok ev2, w2)
    /\ props_of ev1 !! "id" <> props_of ev2 !! "id"
    /\ is_Some (props_of ev1 !! "id").
Proof.
  intros this. eexists _, _, _, _. split; [|split].
  - vm_compute. reflexivity.
  - vm_compute. reflexivity.
  - eapply (successive_events_have_distinct_ids this (VStr "create")
              (VStr "Order") (VNum 1) (VStr "create") (VStr "Order") (VNum 2)
              _ _ wired).
    + exact demo_uuid_inj.
    + vm_compute. reflexivity.
    + apply le_n.
    + vm_compute. reflexivity.
Defined.

Lemma event_decorators_commute_witness :
  let o := event_options "CREATE" "ORDER" in
  (o1 <- addTimestamp o ;; o2 <- addEventName o1 ;; addId o2) wired
  = (o1 <- addId o ;; o2 <- addEventName o1 ;; addTimestamp o2) wired.
Proof.
  intros o.
  exact (event_decorators_commute o "CREATE" "order" wired eq_refl eq_refl
           eq_refl (or_introl eq_refl)).
Defined.

Lemma addModel_notifies_under_protocol_name_witness :
  let input := VObj false {[ "total" := VNum 100 ]} in
  exists (model : value) (w' : world),
    addModel Model_create (VStr "Order") input wired = (Ok model, w')
    /\ exists (name : string) (event : value) (before : list effect),
        createEventName (VStr "CREATE") (VStr "Order") = Ok name
        /\ props_of event !! "eventName" = Some (VStr name)
        /\ trace w'
           = before ++ [ Saved (get (own_props model) "id") model;
                         Called (VThunk (VStr name)) [];
                         Notified (VStr name) event ].
Proof.
  intros input. eexists _, _. split.
  - vm_compute. reflexivity.
  - eapply (addModel_notifies_under_protocol_name Model_create (VStr "Order")
              input _ wired).
    vm_compute. reflexivity.
Defined.

Lemma addModel_unknown_model_untouched_witness :
  addModel Model_create (VStr "Invoice") (VNum 1) wired
  = (Throw UnregisteredModel, wired)
  /\ trace wired = [].
Proof.
  exact (addModel_unknown_model_untouched Model_create "Invoice" (VNum 1)
           [("ORDER", VHostFn 0)] wired eq_refl eq_refl).
Defined.

Lemma addModel_needs_create_event_witness :
  let input := VObj false {[ "total" := VNum 100 ]} in
  let w := exec (factory <- ModelFactory_getInstance ;;
                 registerModel factory (VStr "Order") (VHostFn 0)) fresh in
  exists w1 : world,
    addModel Model_create (VStr "Order") input w
    = (Throw UnregisteredModelEvent, w1)
    /\ trace w1 = [Called (VHostFn 0) [input]; Called VUuid []].
Proof.
  intros input w. eexists. split.
  - eapply (addModel_needs_create_event Model_create "Order" input _
              (Instance 0) _ JsMap.empty w w).
    + vm_compute. reflexivity.
    + vm_compute. reflexivity.
    + vm_compute. reflexivity.
    + vm_compute. reflexivity.
    + reflexivity.
  - vm_compute. reflexivity.
Defined.

Lemma registration_round_trip_witness :
  let this := Instance 0 in
  result (registerModel this (VStr "Order") (VHostFn 0)) constructed = Ok tt
  /\ model_constructor
       (exec (registerModel this (VStr "Order") (VHostFn 0)) constructed) "ORDER"
     = Some (VHostFn 0)
  /\ result (registerEvent this (VStr "create") (VStr "Order") (VHostFn 1))
       constructed
     = Ok tt
  /\ event_constructor
       (exec (registerEvent this (VStr "create") (VStr "Order") (VHostFn 1))
          constructed) "CREATE" "ORDER"
     = Some (VHostFn 1).
Proof.
  intros this.
  destruct (registration_round_trip this (VStr "create") "Order" "CREATE"
              (VHostFn 0) constructed (new_instance_ready fresh) eq_refl
              eq_refl) as (H1 & H2 & _).
  destruct (registration_round_trip this (VStr "create") "Order" "CREATE"
              (VHostFn 1) constructed (new_instance_ready fresh) eq_refl
              eq_refl) as (_ & _ & H3 & H4).
  split; [exact H1|]. split; [exact H2|]. split; [exact H3 | exact H4].
Defined.

Lemma canonical_forms_stable_witness :
  checkEventType (VStr "CREATE") = Ok "CREATE"
  /\ checkModelName (VStr "ORDER") = Ok "ORDER"
  /\ createEventName (VStr "CREATE") (VStr "ORDER")
     = createEventName (VStr "create") (VStr "Order").
Proof.
  exact (canonical_forms_stable (VStr "create") (VStr "Order") "CREATE" "ORDER"
           eq_refl eq_refl).
Defined.

